(** * Quiz generator for Colab: a shallow embedding of [app.py]

    The program is one Python script.  Its logic lives in
    [generate_python_code] (parse the instructor's question lines, hash the
    answers, substitute everything into a script template), in the grading
    routine [eval_quiz] that the template carries, in [generate_certificate],
    and in the form handler at the end of the script.

    Python values are modelled as follows.
    - A [str] is a list of code points.  The model covers the code points
      U+0000..U+00FF, held in the 8-bit type [ascii]; on that range
      [str.strip], [str.lower], [str.split], [str.encode] and [repr] are
      written out exactly as CPython computes them.
    - [bytes] are lists of integers in 0..255, and SHA-256 works on 32-bit
      words held in [Z] with the wrap-around written out.
    - A [dict] literal is an association list in insertion order.
    - Exceptions are a result type; the clock, the UUID source and the
      temporary directory are an explicit world that is passed along.
    - Floats are the binary64 numbers of [PrimFloat]. *)

From Stdlib Require Import List ZArith NArith Bool Ascii String Lia.
From Stdlib Require Import DecimalString QArith.
From Stdlib Require Import Uint63 PrimFloat FloatOps FloatAxioms SpecFloat.
Import ListNotations.

Local Open Scope Z_scope.

(** ** Python strings *)

Module PyStr.

Definition str := list ascii.

(** Literals are written as Rocq strings and turned into lists. *)
Definition s2l (s : string) : str := list_ascii_of_string s.

Definition ord (c : ascii) : Z := Z.of_N (N_of_ascii c).
Definition chr (n : Z) : ascii := ascii_of_N (Z.to_N n).

Definition LF : ascii := chr 10.
Definition COMMA : ascii := chr 44.

(** [str.isspace] on one code point: TAB, LF, VT, FF, CR, the separators
    U+001C..U+001F, SPACE, NEL (U+0085) and NBSP (U+00A0). *)
Definition isspace (c : ascii) : bool :=
  let n := ord c in
  ((9 <=? n) && (n <=? 13)) || ((28 <=? n) && (n <=? 32))
  || (n =? 133) || (n =? 160).

(** [str.lower] on one code point: A-Z, and the Latin-1 capitals
    U+00C0..U+00DE except the multiplication sign U+00D7, move up by 32. *)
Definition lower_char (c : ascii) : ascii :=
  let n := ord c in
  if ((65 <=? n) && (n <=? 90))
     || ((192 <=? n) && (n <=? 222) && negb (n =? 215))
  then chr (n + 32) else c.

Definition lower (s : str) : str := map lower_char s.

(** [s.lstrip()]: drop the longest whitespace prefix. *)
Fixpoint lstrip (s : str) : str :=
  match s with
  | [] => []
  | c :: s' => if isspace c then lstrip s' else s
  end.

(** [s.rstrip()]: drop the longest whitespace suffix. *)
Fixpoint rstrip (s : str) : str :=
  match s with
  | [] => []
  | c :: s' =>
      match rstrip s' with
      | [] => if isspace c then [] else [c]
      | r => c :: r
      end
  end.

(** [s.strip()] *)
Definition strip (s : str) : str := rstrip (lstrip s).

(** [s.split(sep)] for a one-character separator: never empty, one more
    field than there are separators. *)
Fixpoint split (sep : ascii) (s : str) : list str :=
  match s with
  | [] => [[]]
  | c :: s' =>
      if Ascii.eqb c sep then [] :: split sep s'
      else match split sep s' with
           | h :: t => (c :: h) :: t
           | [] => [[c]]
           end
  end.

Definition str_eqb (a b : str) : bool :=
  if list_eq_dec ascii_dec a b then true else false.

(** Truth value of a string: the empty string is false. *)
Definition truthy (s : str) : bool :=
  match s with [] => false | _ => true end.

(** [s.encode()]: UTF-8.  Code points below U+0080 are one byte, the
    others of the range two bytes. *)
Definition encode_char (c : ascii) : list Z :=
  let n := ord c in
  if n <? 128 then [n]
  else [Z.lor 192 (Z.shiftr n 6); Z.lor 128 (Z.land n 63)].

Definition encode (s : str) : list Z := flat_map encode_char s.

End PyStr.
Export PyStr.

(** ** SHA-256 (FIPS 180-4), as [hashlib.sha256] computes it *)

Module Sha256.

(** Words are 32 bits wide; sums wrap around. *)
Definition w32 (x : Z) : Z := x mod 4294967296.
Definition add32 (x y : Z) : Z := w32 (x + y).

Definition rotr (n x : Z) : Z :=
  Z.lor (Z.shiftr x n) (w32 (Z.shiftl x (32 - n))).
Definition shr (n x : Z) : Z := Z.shiftr x n.
Definition not32 (x : Z) : Z := Z.lxor x 0xffffffff.

Definition Ch (x y z : Z) : Z := Z.lxor (Z.land x y) (Z.land (not32 x) z).
Definition Maj (x y z : Z) : Z :=
  Z.lxor (Z.lxor (Z.land x y) (Z.land x z)) (Z.land y z).
Definition bsig0 (x : Z) : Z := Z.lxor (Z.lxor (rotr 2 x) (rotr 13 x)) (rotr 22 x).
Definition bsig1 (x : Z) : Z := Z.lxor (Z.lxor (rotr 6 x) (rotr 11 x)) (rotr 25 x).
Definition ssig0 (x : Z) : Z := Z.lxor (Z.lxor (rotr 7 x) (rotr 18 x)) (shr 3 x).
Definition ssig1 (x : Z) : Z := Z.lxor (Z.lxor (rotr 17 x) (rotr 19 x)) (shr 10 x).

(** Round constants and initial hash value. *)
Definition K : list Z :=
  [0x428A2F98; 0x71374491; 0xB5C0FBCF; 0xE9B5DBA5; 0x3956C25B; 0x59F111F1;
   0x923F82A4; 0xAB1C5ED5; 0xD807AA98; 0x12835B01; 0x243185BE; 0x550C7DC3;
   0x72BE5D74; 0x80DEB1FE; 0x9BDC06A7; 0xC19BF174; 0xE49B69C1; 0xEFBE4786;
   0x0FC19DC6; 0x240CA1CC; 0x2DE92C6F; 0x4A7484AA; 0x5CB0A9DC; 0x76F988DA;
   0x983E5152; 0xA831C66D; 0xB00327C8; 0xBF597FC7; 0xC6E00BF3; 0xD5A79147;
   0x06CA6351; 0x14292967; 0x27B70A85; 0x2E1B2138; 0x4D2C6DFC; 0x53380D13;
   0x650A7354; 0x766A0ABB; 0x81C2C92E; 0x92722C85; 0xA2BFE8A1; 0xA81A664B;
   0xC24B8B70; 0xC76C51A3; 0xD192E819; 0xD6990624; 0xF40E3585; 0x106AA070;
   0x19A4C116; 0x1E376C08; 0x2748774C; 0x34B0BCB5; 0x391C0CB3; 0x4ED8AA4A;
   0x5B9CCA4F; 0x682E6FF3; 0x748F82EE; 0x78A5636F; 0x84C87814; 0x8CC70208;
   0x90BEFFFA; 0xA4506CEB; 0xBEF9A3F7; 0xC67178F2].

Definition H0 : list Z :=
  [0x6A09E667; 0xBB67AE85; 0x3C6EF372; 0xA54FF53A;
   0x510E527F; 0x9B05688C; 0x1F83D9AB; 0x5BE0CD19].

(** Padding: a one bit, zeros up to 56 modulo 64 bytes, then the length of
    the message in bits as a 64-bit big-endian number. *)
Definition be_bytes (width : nat) (x : Z) : list Z :=
  map (fun i => Z.land (Z.shiftr x (8 * Z.of_nat i)) 255) (rev (seq 0 width)).

Definition pad (msg : list Z) : list Z :=
  let len := Z.of_nat (List.length msg) in
  msg ++ [128] ++ repeat 0 (Z.to_nat ((55 - len) mod 64)) ++ be_bytes 8 (8 * len).

Fixpoint chunks_fuel {A} (fuel n : nat) (l : list A) : list (list A) :=
  match fuel, l with
  | _, [] => []
  | O, _ => []
  | S fuel', _ => firstn n l :: chunks_fuel fuel' n (skipn n l)
  end.

(** Consecutive pieces of [n] elements ([n] positive). *)
Definition chunks {A} (n : nat) (l : list A) : list (list A) :=
  chunks_fuel (List.length l) n l.

Definition be_word (bs : list Z) : Z :=
  fold_left (fun acc b => acc * 256 + b) bs 0.

Definition block_words (block : list Z) : list Z :=
  map be_word (chunks 4 block).

(** Message schedule, kept newest word first: the head is W(t-1). *)
Definition next_w (r : list Z) : Z :=
  add32 (add32 (add32 (ssig1 (nth 1 r 0)) (nth 6 r 0)) (ssig0 (nth 14 r 0)))
        (nth 15 r 0).

Fixpoint extend (k : nat) (r : list Z) : list Z :=
  match k with
  | O => r
  | S k' => extend k' (next_w r :: r)
  end.

Definition schedule (m : list Z) : list Z := rev (extend 48 (rev m)).

(** One round on the working variables a..h. *)
Definition round (v : list Z) (kw : Z * Z) : list Z :=
  match v with
  | [a; b; c; d; e; f; g; h] =>
      let t1 := add32 (add32 (add32 (add32 h (bsig1 e)) (Ch e f g)) (fst kw)) (snd kw) in
      let t2 := add32 (bsig0 a) (Maj a b c) in
      [add32 t1 t2; a; b; c; add32 d t1; e; f; g]
  | _ => v
  end.

Definition compress (h : list Z) (block : list Z) : list Z :=
  let w := schedule (block_words block) in
  let v := fold_left round (combine K w) h in
  map (fun p => add32 (fst p) (snd p)) (combine h v).

Definition digest_words (msg : list Z) : list Z :=
  fold_left compress (chunks 64 (pad msg)) H0.

(** [hashlib.sha256(msg).digest()] *)
Definition digest (msg : list Z) : list Z :=
  flat_map (be_bytes 4) (digest_words msg).

Definition hex_digit (n : Z) : ascii :=
  if n <? 10 then chr (48 + n) else chr (87 + n).

Definition hex_byte (b : Z) : str := [hex_digit (Z.shiftr b 4); hex_digit (Z.land b 15)].

(** [hashlib.sha256(msg).hexdigest()] *)
Definition hexdigest (msg : list Z) : str := flat_map hex_byte (digest msg).

End Sha256.

(** [hashlib.sha256(s.encode()).hexdigest()] *)
Definition sha256_hex (s : str) : str := Sha256.hexdigest (encode s).

(** ** Python values, exceptions and containers *)

Inductive exn := IndexError | KeyError | ZeroDivisionError.

Inductive result (A : Type) := Ok (a : A) | Raise (e : exn).
Arguments Ok {A} a.
Arguments Raise {A} e.

Definition bind {A B} (r : result A) (k : A -> result B) : result B :=
  match r with
  | Ok a => k a
  | Raise e => Raise e
  end.

Declare Scope py_scope.
Delimit Scope py_scope with py.
Notation "x <- c ;; k" := (bind c (fun x => k))
  (at level 61, c at next level, right associativity) : py_scope.
Local Open Scope py_scope.

(** [for x in xs: acc = body(acc, x)], stopping at the first exception. *)
Fixpoint for_each {A S} (body : S -> A -> result S) (xs : list A) (acc : S)
  : result S :=
  match xs with
  | [] => Ok acc
  | x :: xs' => acc' <- body acc x ;; for_each body xs' acc'
  end.

Definition len {A} (l : list A) : Z := Z.of_nat (List.length l).

(** [l[i]]: a negative index counts from the end; out of range raises. *)
Definition getitem {A} (l : list A) (i : Z) : result A :=
  let j := if i <? 0 then i + len l else i in
  if (0 <=? j) && (j <? len l)
  then match nth_error l (Z.to_nat j) with
       | Some x => Ok x
       | None => Raise IndexError
       end
  else Raise IndexError.

(** A slice bound: negative bounds count from the end, then the bound is
    clamped to the list. *)
Definition clamp {A} (l : list A) (i : Z) : nat :=
  let j := if i <? 0 then i + len l else i in
  Z.to_nat (Z.max 0 (Z.min j (len l))).

(** [l[start:stop]] *)
Definition slice {A} (l : list A) (start stop : Z) : list A :=
  let a := clamp l start in
  let b := clamp l stop in
  firstn (b - a) (skipn a l).

(** The values held in a question record: a string or a list of strings. *)
Inductive pyval :=
| PStr (s : str)
| PList (l : list str).

(** A [dict] with string keys, in insertion order. *)
Definition dict := list (str * pyval).

Fixpoint dict_get (d : dict) (k : str) : result pyval :=
  match d with
  | [] => Raise KeyError
  | (k', v) :: d' => if str_eqb k' k then Ok v else dict_get d' k
  end.

Definition keys (d : dict) : list str := map fst d.

(** ** The parser of [generate_python_code] *)

Definition MULTIPLE_CHOICE : str := s2l "Multiple Choice".

Definition K_QUESTION : str := s2l "question".
Definition K_OPTIONS : str := s2l "options".
Definition K_ANSWER_HASH : str := s2l "answer_hash".

(** The body of the loop over the lines: [parsed_questions] before the
    line, [parsed_questions] after it. *)
Definition parse_line (quiz_type : str) (parsed_questions : list dict)
  (line : str) : result (list dict) :=
  if negb (truthy (strip line)) then Ok parsed_questions
  else
    let parts := map strip (split COMMA line) in
    if str_eqb quiz_type MULTIPLE_CHOICE then
      if len parts <? 3 then Ok parsed_questions
      else
        q_text <- getitem parts 0 ;;
        let options := slice parts 1 (-1) in
        answer <- getitem parts (-1) ;;
        Ok (parsed_questions ++
            [[(K_QUESTION, PStr q_text);
              (K_OPTIONS, PList options);
              (K_ANSWER_HASH, PStr (sha256_hex (lower answer)))]])
    else
      if len parts <? 2 then Ok parsed_questions
      else
        q_text <- getitem parts 0 ;;
        answer <- getitem parts 1 ;;
        Ok (parsed_questions ++
            [[(K_QUESTION, PStr q_text);
              (K_ANSWER_HASH, PStr (sha256_hex (lower answer)))]]).

(** Lines 66-89: the whole loop. *)
Definition parse_questions (quiz_type questions_text : str)
  : result (list dict) :=
  for_each (parse_line quiz_type) (split LF (strip questions_text)) [].

(** ** [repr] of the parsed questions *)

Definition SQUOTE : ascii := chr 39.
Definition DQUOTE : ascii := chr 34.
Definition BACKSLASH : ascii := chr 92.

(** [str.isprintable] on one code point: the controls, DEL, U+0080..U+00A0
    and the soft hyphen U+00AD are not printable. *)
Definition isprintable (c : ascii) : bool :=
  let n := ord c in
  negb ((n <? 32) || ((127 <=? n) && (n <=? 160)) || (n =? 173)).

Definition repr_char (quote c : ascii) : str :=
  if Ascii.eqb c quote || Ascii.eqb c BACKSLASH then [BACKSLASH; c]
  else if ord c =? 9 then s2l "\t"
  else if ord c =? 10 then s2l "\n"
  else if ord c =? 13 then s2l "\r"
  else if negb (isprintable c) then s2l "\x" ++ Sha256.hex_byte (ord c)
  else [c].

(** [repr(s)]: single quotes, unless the string holds a single quote and
    no double quote. *)
Definition repr_str (s : str) : str :=
  let quote :=
    if existsb (Ascii.eqb SQUOTE) s && negb (existsb (Ascii.eqb DQUOTE) s)
    then DQUOTE else SQUOTE in
  [quote] ++ flat_map (repr_char quote) s ++ [quote].

(** [sep.join(items)] *)
Fixpoint join (sep : str) (items : list str) : str :=
  match items with
  | [] => []
  | [x] => x
  | x :: rest => x ++ sep ++ join sep rest
  end.

Definition repr_list (items : list str) : str :=
  s2l "[" ++ join (s2l ", ") items ++ s2l "]".

Definition repr_val (v : pyval) : str :=
  match v with
  | PStr s => repr_str s
  | PList l => repr_list (map repr_str l)
  end.

Definition repr_dict (d : dict) : str :=
  s2l "{" ++
  join (s2l ", ") (map (fun kv => repr_str (fst kv) ++ s2l ": " ++ repr_val (snd kv)) d)
  ++ s2l "}".

(** [repr(parsed_questions)], which is what the replacement field
    [{parsed_questions}] of the template expands to. *)
Definition repr_questions (qs : list dict) : str :=
  repr_list (map repr_dict qs).

(** ** The script template of [generate_python_code]

    The f-string of lines 93-195, line by line.  [Text] is literal text
    (with the doubled braces of the f-string already single), [Quote] is
    one double-quote character, and the other pieces are the four
    replacement fields. *)

Inductive piece :=
| Text (s : string)
| Quote
| Instructor
| QuizType
| Questions
| Title.

Definition template : list (list piece) :=
  [
  [Text "!pip install gradio reportlab"];
  [Text "# --- Generated Quiz App ---"];
  [Text "# Copy and paste this entire code block into a single Google Colab cell and run it."];
  [];
  [Text "import gradio as gr"];
  [Text "import uuid, os, tempfile, hashlib"];
  [Text "from reportlab.lib.pagesizes import A5, landscape"];
  [Text "from reportlab.pdfgen import canvas"];
  [Text "from reportlab.lib.units import mm"];
  [Text "from reportlab.lib.colors import HexColor"];
  [Text "from datetime import datetime"];
  [];
  [Text "# Certificate generation function (included for a self-contained script)"];
  [Text "def generate_certificate(name, score, total, instructor="; Quote; Instructor; Quote;
   Text "):"];
  [Text "    unique_id = str(uuid.uuid4())"];
  [Text "    filename = f"; Quote; Text "cert_{unique_id}.pdf"; Quote];
  [Text "    filepath = os.path.join(tempfile.gettempdir(), filename)"];
  [Text "    c = canvas.Canvas(filepath, pagesize=landscape(A5))"];
  [Text "    width, height = landscape(A5)"];
  [Text "    c.setFillColor(HexColor("; Quote; Text "#fffdf6"; Quote; Text "))"];
  [Text "    c.rect(0, 0, width, height, stroke=0, fill=1)"];
  [Text "    c.setStrokeColor(HexColor("; Quote; Text "#001858"; Quote; Text "))"];
  [Text "    c.setLineWidth(3)"];
  [Text "    margin = 10 * mm"];
  [Text "    c.rect(margin, margin, width - 2 * margin, height - 2 * margin)"];
  [Text "    c.setFillColor(HexColor("; Quote; Text "#001858"; Quote; Text "))"];
  [Text "    c.setFont("; Quote; Text "Helvetica-Bold"; Quote; Text ", 24)"];
  [Text "    c.drawCentredString(width / 2, height - 60, "; Quote;
   Text "Certificate of Completion"; Quote; Text ")"];
  [Text "    c.setFont("; Quote; Text "Helvetica"; Quote; Text ", 14)"];
  [Text "    c.drawCentredString(width / 2, height - 100, "; Quote; Text "This is awarded to";
   Quote; Text ")"];
  [Text "    c.setFont("; Quote; Text "Helvetica-Bold"; Quote; Text ", 18)"];
  [Text "    c.drawCentredString(width / 2, height - 130, name)"];
  [Text "    c.setFont("; Quote; Text "Helvetica"; Quote; Text ", 14)"];
  [Text "    c.drawCentredString(width / 2, height - 160, "; Quote;
   Text "For successfully completing the quiz"; Quote; Text ")"];
  [Text "    c.setFont("; Quote; Text "Helvetica"; Quote; Text ", 12)"];
  [Text "    c.drawCentredString(width / 2, height - 185, f"; Quote;
   Text "Score: {score} / {total}"; Quote; Text ")"];
  [Text "    c.setFont("; Quote; Text "Helvetica-Oblique"; Quote; Text ", 10)"];
  [Text "    c.drawString(margin + 10, margin + 20, f"; Quote; Text "Instructor: {instructor}";
   Quote; Text ")"];
  [Text "    date_str = datetime.now().strftime("; Quote; Text "%d %B %Y"; Quote; Text ")"];
  [Text "    c.setFont("; Quote; Text "Helvetica"; Quote; Text ", 10)"];
  [Text "    c.drawRightString(width - margin - 10, margin + 20, f"; Quote;
   Text "Issued on: {date_str}"; Quote; Text ")"];
  [Text "    c.save()"];
  [Text "    return filepath"];
  [];
  [Text "# Quiz data (answers are hashed)"];
  [Text "quiz_type = "; Quote; QuizType; Quote];
  [Text "questions = "; Questions];
  [];
  [Text "def eval_quiz(name, *answers):"];
  [Text "    "; Quote; Quote; Quote];
  [Text "    Evaluates the student's answers and generates a certificate only if the score is 80% or higher."];
  [Text "    "; Quote; Quote; Quote];
  [Text "    if not name.strip():"];
  [Text "        name = "; Quote; Text "Anonymous"; Quote];
  [Text "    score = 0"];
  [Text "    for i, ans in enumerate(answers):"];
  [Text "        if ans and hashlib.sha256(str(ans).lower().strip().encode()).hexdigest() == questions[i][";
   Quote; Text "answer_hash"; Quote; Text "]:"];
  [Text "            score += 1"];
  [Text "    "];
  [Text "    total_questions = len(questions)"];
  [Text "    passing_threshold = 0.8"];
  [Text "    "];
  [Text "    result_message = f"; Quote;
   Text "Hi {name}, your score is: {score} / {total_questions}."; Quote];
  [Text "    cert_path = None # Default to no certificate"];
  [];
  [Text "    # Check if the score meets the passing threshold"];
  [Text "    if total_questions > 0 and (score / total_questions) >= passing_threshold:"];
  [Text "        cert_path = generate_certificate(name, score, total_questions, instructor=";
   Quote; Instructor; Quote; Text ")"];
  [Text "        result_message += "; Quote;
   Text " Congratulations, you passed and earned a certificate!"; Quote];
  [Text "    else:"];
  [Text "        result_message += "; Quote;
   Text " A score of 80% is required to receive a certificate."; Quote];
  [];
  [Text "    return result_message, cert_path"];
  [];
  [Text "# Gradio interface for the student"];
  [Text "with gr.Blocks(theme=gr.themes.Soft()) as app:"];
  [Text "    gr.Markdown("; Quote; Text "## "; Title; Quote; Text ")"];
  [Text "    "];
  [Text "    with gr.Row():"];
  [Text "        name = gr.Textbox(label="; Quote;
   Text "Enter Your Full Name to Generate Certificate"; Quote; Text ", placeholder="; Quote;
   Text "e.g., Ada Lovelace"; Quote; Text ")"];
  [];
  [Text "    answer_inputs = []"];
  [Text "    for q in questions:"];
  [Text "        gr.Markdown("; Quote; Text "**Question:** "; Quote; Text " + q['question'])"];
  [Text "        if quiz_type == "; Quote; Text "Multiple Choice"; Quote; Text ":"];
  [Text "            answer_inputs.append(gr.Radio(choices=q["; Quote; Text "options"; Quote;
   Text "], label="; Quote; Text "Select your answer"; Quote; Text "))"];
  [Text "        else:"];
  [Text "            answer_inputs.append(gr.Textbox(label="; Quote; Text "Type your answer";
   Quote; Text "))"];
  [];
  [Text "    submit_btn = gr.Button("; Quote; Text "Submit Quiz"; Quote; Text ")"];
  [Text "    "];
  [Text "    with gr.Row():"];
  [Text "        result_output = gr.Textbox(label="; Quote; Text "Your Result"; Quote; Text ")"];
  [Text "        certificate_output = gr.File(label="; Quote; Text "Download Your Certificate";
   Quote; Text ")"];
  [];
  [Text "    submit_btn.click("];
  [Text "        fn=eval_quiz, "];
  [Text "        inputs=[name] + answer_inputs, "];
  [Text "        outputs=[result_output, certificate_output]"];
  [Text "    )"];
  [];
  [Text "app.launch(debug=True)"]
  ].

Definition render_piece (title instructor quiz_type : str)
  (parsed_questions : list dict) (p : piece) : str :=
  match p with
  | Text s => s2l s
  | Quote => [DQUOTE]
  | Instructor => instructor
  | QuizType => quiz_type
  | Questions => repr_questions parsed_questions
  | Title => title
  end.

(** The value of the f-string. *)
Definition render (title instructor quiz_type : str)
  (parsed_questions : list dict) : str :=
  flat_map
    (fun line =>
       flat_map (render_piece title instructor quiz_type parsed_questions) line
       ++ [LF])
    template.

(** ** The world around the program

    What the program reads and writes outside its own variables: the UUID
    source, the temporary directory, the clock, the files it saves and the
    page Streamlit shows. *)

(** Calls on a reportlab canvas.  The coordinates are floating-point page
    positions and are left out; the order of the calls and their text are
    kept. *)
Inductive canvas_op :=
| SetFillColor (hex : str)
| SetStrokeColor (hex : str)
| SetLineWidth (w : Z)
| Rect (stroke fill : bool)
| SetFont (name : str) (size : Z)
| DrawCentredString (text : str)
| DrawString (text : str)
| DrawRightString (text : str).

(** What the instructor's page shows. *)
Inductive widget :=
| StError (body : str)
| StHeader (body : str)
| StMarkdown (body : str)
| StCode (body language : str).

Record World := mkWorld {
  uuid_source : nat -> str;   (* what the calls of [uuid.uuid4()] return, in order *)
  uuid_drawn : nat;           (* how many have been drawn so far *)
  tempdir : str;              (* [tempfile.gettempdir()] *)
  today : str;                (* [datetime.now().strftime("%d %B %Y")] *)
  files : list (str * list canvas_op);
  page : list widget
}.

(** A computation that may read and change the world and may raise. *)
Definition prog (A : Type) := World -> result A * World.

Definition retP {A} (a : A) : prog A := fun w => (Ok a, w).

Definition bindP {A B} (c : prog A) (k : A -> prog B) : prog B :=
  fun w =>
    match c w with
    | (Ok a, w') => k a w'
    | (Raise e, w') => (Raise e, w')
    end.

Definition lift {A} (r : result A) : prog A := fun w => (r, w).

Notation "x <~ c ;; k" := (bindP c (fun x => k))
  (at level 61, c at next level, right associativity) : py_scope.
Notation "c ;;; k" := (bindP c (fun _ => k))
  (at level 61, right associativity) : py_scope.

Definition draw_uuid (w : World) : World :=
  mkWorld (uuid_source w) (S (uuid_drawn w)) (tempdir w) (today w)
          (files w) (page w).

Definition add_file (filepath : str) (ops : list canvas_op) (w : World)
  : World :=
  mkWorld (uuid_source w) (uuid_drawn w) (tempdir w) (today w)
          (files w ++ [(filepath, ops)]) (page w).

Definition add_widget (x : widget) (w : World) : World :=
  mkWorld (uuid_source w) (uuid_drawn w) (tempdir w) (today w)
          (files w) (page w ++ [x]).

Definition uuid4 : prog str :=
  fun w => (Ok (uuid_source w (uuid_drawn w)), draw_uuid w).

Definition gettempdir : prog str := fun w => (Ok (tempdir w), w).

Definition now_strftime : prog str := fun w => (Ok (today w), w).

(** [c.save()] of a canvas opened on [filepath]. *)
Definition save (filepath : str) (ops : list canvas_op) : prog unit :=
  fun w => (Ok tt, add_file filepath ops w).

(** A Streamlit call that puts a widget on the page. *)
Definition show (x : widget) : prog unit :=
  fun w => (Ok tt, add_widget x w).

(** [os.path.join(a, b)] on a POSIX system. *)
Definition path_join (a b : str) : str :=
  match b with
  | c :: _ => if Ascii.eqb c (chr 47) then b
              else match rev a with
                   | [] => b
                   | d :: _ => if Ascii.eqb d (chr 47) then a ++ b
                               else a ++ [chr 47] ++ b
                   end
  | [] => match rev a with
          | [] => b
          | d :: _ => if Ascii.eqb d (chr 47) then a else a ++ [chr 47]
          end
  end.

(** [str(n)] for an integer. *)
Definition str_of_int (n : Z) : str :=
  s2l (NilZero.string_of_int (Z.to_int n)).

(** ** [generate_certificate] (lines 13-57, and again in the template) *)

Definition generate_certificate (name : str) (score total : Z)
  (instructor : str) : prog str :=
  unique_id <~ uuid4 ;;
  let filename := s2l "cert_" ++ unique_id ++ s2l ".pdf" in
  tmp <~ gettempdir ;;
  let filepath := path_join tmp filename in
  date_str <~ now_strftime ;;
  save filepath
    [SetFillColor (s2l "#fffdf6");
     Rect false true;
     SetStrokeColor (s2l "#001858");
     SetLineWidth 3;
     Rect true false;
     SetFillColor (s2l "#001858");
     SetFont (s2l "Helvetica-Bold") 24;
     DrawCentredString (s2l "Certificate of Completion");
     SetFont (s2l "Helvetica") 14;
     DrawCentredString (s2l "This is awarded to");
     SetFont (s2l "Helvetica-Bold") 18;
     DrawCentredString name;
     SetFont (s2l "Helvetica") 14;
     DrawCentredString (s2l "For successfully completing the quiz");
     SetFont (s2l "Helvetica") 12;
     DrawCentredString
       (s2l "Score: " ++ str_of_int score ++ s2l " / " ++ str_of_int total);
     SetFont (s2l "Helvetica-Oblique") 10;
     DrawString (s2l "Instructor: " ++ instructor);
     SetFont (s2l "Helvetica") 10;
     DrawRightString (s2l "Issued on: " ++ date_str)] ;;;
  retP filepath.

(** ** [generate_python_code] (lines 60-196) *)

Definition generate_python_code (title instructor quiz_type questions_text : str)
  : prog str :=
  parsed_questions <~ lift (parse_questions quiz_type questions_text) ;;
  let python_code := render title instructor quiz_type parsed_questions in
  retP python_code.

(** ** [eval_quiz], the grading routine of the emitted script

    In the emitted script [questions] is the literal that
    [{parsed_questions}] expanded to and the instructor's name is the
    string literal that [{instructor}] was put into; here both are
    arguments.  A submitted answer is a string or [None]. *)

(** [a / b] on integers: binary64 true division.  The operands are taken
    to binary64 first, which is exact below 2^53. *)
Definition float_of_int (n : Z) : float :=
  PrimFloat.of_uint63 (Uint63.of_Z n).

Definition truediv (a b : Z) : result float :=
  if b =? 0 then Raise ZeroDivisionError
  else Ok (PrimFloat.div (float_of_int a) (float_of_int b)).

(** [passing_threshold = 0.8]: the literal is read as the nearest binary64
    number, 0x1.999999999999ap-1. *)
Set Warnings "-inexact-float".
Definition passing_threshold : float := 0.8%float.
Set Warnings "inexact-float".

(** The condition of the [if] inside the loop, for answer number [i].
    [and] evaluates the digest of the submission before it looks at
    [questions[i]].  On the strings covered here, whose code points stop at
    U+00FF, [encode()] returns; on a string that holds a lone surrogate
    Python raises UnicodeEncodeError at this point, and such a string has
    no counterpart in [str]. *)
Definition answer_matches (questions : list dict) (i : Z) (ans : option str)
  : result bool :=
  match ans with
  | None => Ok false
  | Some a =>
      if negb (truthy a) then Ok false
      else
        let h := sha256_hex (strip (lower a)) in
        q <- getitem questions i ;;
        stored <- dict_get q K_ANSWER_HASH ;;
        Ok (match stored with
            | PStr s => str_eqb h s
            | PList _ => false
            end)
  end.

(** The loop over [enumerate(answers)], from index [i] and score [score]. *)
Fixpoint count_score (questions : list dict) (answers : list (option str))
  (i score : Z) : result Z :=
  match answers with
  | [] => Ok score
  | ans :: rest =>
      hit <- answer_matches questions i ans ;;
      count_score questions rest (i + 1) (if hit then score + 1 else score)
  end.

(** The condition of line 159; [and] does not evaluate its right side when
    the left side is false. *)
Definition meets_threshold (score total_questions : Z) : result bool :=
  if 0 <? total_questions then
    ratio <- truediv score total_questions ;;
    Ok (PrimFloat.leb passing_threshold ratio)
  else Ok false.

Definition eval_quiz (instructor : str) (questions : list dict)
  (name : str) (answers : list (option str)) : prog (str * option str) :=
  let name := if negb (truthy (strip name)) then s2l "Anonymous" else name in
  score <~ lift (count_score questions answers 0 0) ;;
  let total_questions := len questions in
  let result_message :=
    s2l "Hi " ++ name ++ s2l ", your score is: " ++ str_of_int score
    ++ s2l " / " ++ str_of_int total_questions ++ s2l "." in
  pass <~ lift (meets_threshold score total_questions) ;;
  if pass then
    cert_path <~ generate_certificate name score total_questions instructor ;;
    retP (result_message
          ++ s2l " Congratulations, you passed and earned a certificate!",
          Some cert_path)
  else
    retP (result_message
          ++ s2l " A score of 80% is required to receive a certificate.",
          None).

(** ** The form handler (lines 224-231) *)

(** [all(xs)] on strings. *)
Definition all (xs : list str) : bool := forallb truthy xs.

Definition on_submit (submitted : bool)
  (title instructor quiz_type questions_text : str) : prog unit :=
  if submitted then
    if negb (all [title; instructor; questions_text]) then
      show (StError (s2l "Please fill in all fields to generate the code."))
    else
      generated_code <~
        generate_python_code title instructor quiz_type questions_text ;;
      show (StHeader (s2l "2. Copy Your Generated Code")) ;;;
      show (StMarkdown
        (s2l "Paste this entire code block into a single Google Colab cell and run it.")) ;;;
      show (StCode generated_code (s2l "python"))
  else retP tt.

(** ** Vocabulary of the statements *)

(** A line is blank when it holds whitespace only. *)
Definition blank (line : str) : bool := forallb isspace line.

Definition is_mc (quiz_type : str) : bool := str_eqb quiz_type MULTIPLE_CHOICE.

(** The least number of comma-separated fields a line needs. *)
Definition min_fields (quiz_type : str) : nat :=
  if is_mc quiz_type then 3%nat else 2%nat.

Definition well_formed (quiz_type line : str) : bool :=
  (min_fields quiz_type <=? List.length (split COMMA line))%nat.

(** The field of a line that holds the correct answer: the last one of a
    multiple-choice line, the second one of a text-answer line. *)
Definition answer_field (quiz_type : str) (fs : list str) : str :=
  if is_mc quiz_type then last fs [] else nth 1 fs [].

Definition mc_record (question : str) (options : list str) (answer_hash : str)
  : dict :=
  [(K_QUESTION, PStr question); (K_OPTIONS, PList options);
   (K_ANSWER_HASH, PStr answer_hash)].

Definition text_record (question answer_hash : str) : dict :=
  [(K_QUESTION, PStr question); (K_ANSWER_HASH, PStr answer_hash)].

(** The record of a well-formed line, from its untrimmed fields. *)
Definition record_of (quiz_type : str) (fs : list str) : dict :=
  let digest := sha256_hex (lower (strip (answer_field quiz_type fs))) in
  if is_mc quiz_type
  then mc_record (strip (hd [] fs)) (map strip (removelast (tl fs))) digest
  else text_record (strip (hd [] fs)) digest.

(** What one line adds to [parsed_questions]. *)
Definition line_records (quiz_type line : str) : list dict :=
  if well_formed quiz_type line then [record_of quiz_type (split COMMA line)]
  else [].


(** A line holds no line feed. *)
Definition one_line (s : str) : bool := negb (existsb (fun c => Ascii.eqb c LF) s).

(** [lines] joined by line feeds. *)
Definition unlines (lines : list str) : str := join [LF] lines.

(** Two strings are equal up to letter case and surrounding whitespace. *)
Definition same_answer (a b : str) : Prop := lower (strip a) = lower (strip b).

(** The binary64 number that the literal [0.8] denotes, as the
    specification of the floats has it. *)
Definition threshold_sf : spec_float :=
  S754_finite false 7205759403792794 (-53).

(** Rounding to nearest even of a quotient [q * 2^e], known up to the
    location [l], when [q] has 53 or 54 binary digits: the mantissa and the
    exponent of the result. *)
Definition round53 (q e : Z) (l : location) : Z * Z :=
  let '(m0, l0, e0) :=
    if q <? 2 ^ 53 then (q, l, e)
    else (q / 2,
          loc_of_shr_record
            {| shr_m := q / 2; shr_r := Z.odd q;
               shr_s := match l with loc_Exact => false | _ => true end |},
          e + 1) in
  let m1 := round_nearest_even m0 l0 in
  if m1 <? 2 ^ 53 then (m1, e0) else (2 ^ 52, e0 + 1).

(** ** Vocabulary of the further properties *)
(** A lowercase hexadecimal digit. *)
Definition is_hex_digit (c : ascii) : bool :=
  let n := ord c in
  ((48 <=? n) && (n <=? 57)) || ((97 <=? n) && (n <=? 102)).

(** An answer the grader skips: [None] or the empty string. *)
Definition unanswered (ans : option str) : bool :=
  match ans with
  | None => true
  | Some a => negb (truthy a)
  end.

(** A record with a string under answer_hash. *)
Definition has_hash (q : dict) : Prop :=
  exists h, dict_get q K_ANSWER_HASH = Ok (PStr h).

(** The path of the certificate [generate_certificate] makes next. *)
Definition next_cert_path (w : World) : str :=
  path_join (tempdir w)
    (s2l "cert_" ++ uuid_source w (uuid_drawn w) ++ s2l ".pdf").

(** ** The form of the emitted script (template lines 168-192)

    As with [eval_quiz], the title and the quiz type are string literals of
    the emitted script and [questions] is its list literal; here they are
    arguments.  A component is kept with the arguments the script gives
    it. *)

Inductive component :=
| GrMarkdown (value : str)
| GrTextbox (label : str) (placeholder : option str)
| GrRadio (choices : pyval) (label : str)
| GrButton (value : str)
| GrFile (label : str).

(** What building the form can raise: a missing key, or [str + list]. *)
Inductive form_error := FormKeyError | FormTypeError.

Record form := mkForm {
  layout : list component;        (* the page, top to bottom *)
  click_inputs : list component;  (* [[name] + answer_inputs] *)
  click_outputs : list component
}.

(** The body of the loop over [questions]: the page so far and
    [answer_inputs] so far, before and after the question. *)
Definition question_widgets (quiz_type : str)
  (st : list component * list component) (q : dict)
  : (list component * list component) + form_error :=
  match dict_get q K_QUESTION with
  | Raise _ => inr FormKeyError
  | Ok (PList _) => inr FormTypeError
  | Ok (PStr text) =>
      let heading := GrMarkdown (s2l "**Question:** " ++ text) in
      if str_eqb quiz_type MULTIPLE_CHOICE then
        match dict_get q K_OPTIONS with
        | Raise _ => inr FormKeyError
        | Ok choices =>
            let radio := GrRadio choices (s2l "Select your answer") in
            inl (fst st ++ [heading; radio], snd st ++ [radio])
        end
      else
        let box := GrTextbox (s2l "Type your answer") None in
        inl (fst st ++ [heading; box], snd st ++ [box])
  end.

Fixpoint question_loop (quiz_type : str) (questions : list dict)
  (st : list component * list component)
  : (list component * list component) + form_error :=
  match questions with
  | [] => inl st
  | q :: rest =>
      match question_widgets quiz_type st q with
      | inl st' => question_loop quiz_type rest st'
      | inr e => inr e
      end
  end.

Definition build_form (title quiz_type : str) (questions : list dict)
  : form + form_error :=
  let name :=
    GrTextbox (s2l "Enter Your Full Name to Generate Certificate")
              (Some (s2l "e.g., Ada Lovelace")) in
  match question_loop quiz_type questions
          ([GrMarkdown (s2l "## " ++ title); name], []) with
  | inr e => inr e
  | inl (page_so_far, answer_inputs) =>
      let submit_btn := GrButton (s2l "Submit Quiz") in
      let result_output := GrTextbox (s2l "Your Result") None in
      let certificate_output := GrFile (s2l "Download Your Certificate") in
      inl (mkForm
             (page_so_far ++ [submit_btn; result_output; certificate_output])
             (name :: answer_inputs)
             [result_output; certificate_output])
  end.


(** ** The template as one run of pieces *)

(** The line feed that ends every line of the template. *)
Definition NEWLINE : piece := Text (String (ascii_of_nat 10) EmptyString).

Definition template_pieces : list piece :=
  flat_map (fun line => line ++ [NEWLINE]) template.

Definition is_text (p : piece) : bool :=
  match p with Text _ | Quote => true | _ => false end.

(** The fixed pieces in front of the first replacement field, and the
    pieces from that field on. *)
Fixpoint until_field (ps : list piece) : list piece * list piece :=
  match ps with
  | [] => ([], [])
  | p :: rest =>
      if is_text p then
        let r := until_field rest in (p :: fst r, snd r)
      else ([], ps)
  end.

(** The text of fixed pieces. *)
Definition fixed_text (ps : list piece) : str :=
  flat_map (render_piece [] [] [] []) ps.

(** The six fixed stretches of the template, between its five
    replacement fields. *)
Definition stretch (n : nat) : str :=
  fixed_text
    (fst (until_field
            (Nat.iter n (fun ps => tl (snd (until_field ps))) template_pieces))).

(** ** Reading a string literal

    How Python reads a string literal of the emitted script back: an
    opening quote, then characters and backslash escapes up to the matching
    quote.  The escapes are the ones [repr] writes: a backslash before a
    backslash or a quote, [\n], [\t], [\r] and [\xhh].  The result is the
    string and the text after the literal; [None] is a literal Python does
    not accept or an escape left out here. *)

Definition hex_value (c : ascii) : option Z :=
  let n := ord c in
  if (48 <=? n) && (n <=? 57) then Some (n - 48)
  else if (97 <=? n) && (n <=? 102) then Some (n - 87)
  else if (65 <=? n) && (n <=? 70) then Some (n - 55)
  else None.

Definition unescape (e : ascii) : option ascii :=
  if Ascii.eqb e BACKSLASH || Ascii.eqb e SQUOTE || Ascii.eqb e DQUOTE
  then Some e
  else if ord e =? 110 then Some (chr 10)
  else if ord e =? 116 then Some (chr 9)
  else if ord e =? 114 then Some (chr 13)
  else None.

Fixpoint read_body (quote : ascii) (s : str) : option (str * str) :=
  match s with
  | [] => None
  | c :: rest =>
      if Ascii.eqb c quote then Some ([], rest)
      else if Ascii.eqb c BACKSLASH then
        match rest with
        | [] => None
        | e :: rest' =>
            if ord e =? 120 then
              match rest' with
              | h1 :: h2 :: rest'' =>
                  match hex_value h1, hex_value h2, read_body quote rest'' with
                  | Some a, Some b, Some (v, tail) =>
                      Some (chr (16 * a + b) :: v, tail)
                  | _, _, _ => None
                  end
              | _ => None
              end
            else
              match unescape e, read_body quote rest' with
              | Some x, Some (v, tail) => Some (x :: v, tail)
              | _, _ => None
              end
        end
      else if Ascii.eqb c LF then None
      else
        match read_body quote rest with
        | Some (v, tail) => Some (c :: v, tail)
        | None => None
        end
  end.

Definition read_str (s : str) : option (str * str) :=
  match s with
  | q :: rest =>
      if Ascii.eqb q SQUOTE || Ascii.eqb q DQUOTE then read_body q rest
      else None
  | [] => None
  end.

(** * Properties *)

(** ** Known values

    What CPython prints for the same inputs. *)

Example sha256_abc :
  sha256_hex (s2l "abc")
  = s2l "ba7816bf8f01cfea414140de5dae2223b00361a396177a9cb410ff61f20015ad".
Proof. vm_compute. reflexivity. Qed.

Example sha256_empty :
  sha256_hex []
  = s2l "e3b0c44298fc1c149afbf4c8996fb92427ae41e4649b934ca495991b7852b855".
Proof. vm_compute. reflexivity. Qed.

Example sha256_two_blocks :
  sha256_hex (s2l "abcdbcdecdefdefgefghfghighijhijkijkljklmklmnlmnomnopnopq")
  = s2l "248d6a61d20638b8e5c026930c3e6039a33ce45964ff2167f6ecedd419db06c1".
Proof. vm_compute. reflexivity. Qed.

Example sha256_e_acute :
  sha256_hex [chr 233]
  = s2l "4a99557e4033c3539de2eb65472017cad5f9557f7a0625a09f1c3f6e2ba69c4c".
Proof. vm_compute. reflexivity. Qed.

Example strip_split_fields :
  map strip (split COMMA (s2l " a, b ,,c  ")) = [s2l "a"; s2l "b"; []; s2l "c"].
Proof. reflexivity. Qed.

Example slice_examples :
  slice [1; 2; 3; 4] 1 (-1) = [2; 3] /\ slice [1; 2] 1 (-1) = []
  /\ slice [1] 1 (-1) = [] /\ getitem [1; 2; 3] (-1) = Ok 3
  /\ getitem [1; 2; 3] 3 = Raise IndexError.
Proof. repeat split. Qed.

Example repr_quotes :
  repr_str (s2l "it's") = [DQUOTE] ++ s2l "it's" ++ [DQUOTE]
  /\ repr_str (s2l "a	b") = s2l "'a\tb'"
  /\ repr_str [chr 233; chr 160] = [SQUOTE; chr 233] ++ s2l "\xa0'".
Proof. repeat split. Qed.

Example threshold_literal : Prim2SF passing_threshold = threshold_sf.
Proof. reflexivity. Qed.

Example parse_two_lines :
  parse_questions MULTIPLE_CHOICE (s2l "
   2+2?, 3 ,4, 4

bad,line
 Capital of France ?,Paris , Rome,paris  ")
  = Ok [mc_record (s2l "2+2?") [s2l "3"; s2l "4"] (sha256_hex (s2l "4"));
        mc_record (s2l "Capital of France ?") [s2l "Paris"; s2l "Rome"]
          (sha256_hex (s2l "paris"))].
Proof. vm_compute. reflexivity. Qed.

(** ** Whitespace and case *)

Lemma isspace_LF : isspace LF = true.
Proof. reflexivity. Qed.

Lemma isspace_not_comma c : isspace c = true -> Ascii.eqb c COMMA = false.
Proof.
  destruct (Ascii.eqb_spec c COMMA) as [->|]; [discriminate | reflexivity].
Qed.

Lemma isspace_lower_char c : isspace (lower_char c) = isspace c.
Proof.
  destruct c as [[] [] [] [] [] [] [] []]; reflexivity.
Qed.

Lemma lstrip_blank s : blank s = true -> lstrip s = [].
Proof.
  induction s as [|c s IH]; simpl; [reflexivity|].
  intros H. apply andb_true_iff in H as [Hc Hs]. now rewrite Hc, IH.
Qed.

Lemma rstrip_blank s : blank s = true -> rstrip s = [].
Proof.
  induction s as [|c s IH]; simpl; [reflexivity|].
  intros H. apply andb_true_iff in H as [Hc Hs]. now rewrite IH, Hc.
Qed.

Lemma rstrip_nil_blank s : rstrip s = [] -> blank s = true.
Proof.
  induction s as [|c s IH]; simpl; [reflexivity|].
  destruct (rstrip s) eqn:E; [|discriminate].
  destruct (isspace c); [intros _; now rewrite IH | discriminate].
Qed.

Lemma rstrip_cons c s :
  rstrip (c :: s) = if isspace c && blank s then [] else c :: rstrip s.
Proof.
  simpl. destruct (rstrip s) eqn:E.
  - rewrite (rstrip_nil_blank s E), andb_true_r. now destruct (isspace c).
  - destruct (blank s) eqn:B.
    + rewrite rstrip_blank in E by assumption. discriminate.
    + now rewrite andb_false_r.
Qed.

Lemma blank_app a b : blank (a ++ b) = blank a && blank b.
Proof. apply forallb_app. Qed.

Lemma rstrip_app_blank s w : blank w = true -> rstrip (s ++ w) = rstrip s.
Proof.
  intros Hw. induction s as [|c s IH].
  - now apply rstrip_blank.
  - change ((c :: s) ++ w) with (c :: (s ++ w)).
    now rewrite !rstrip_cons, IH, blank_app, Hw, andb_true_r.
Qed.

Lemma lstrip_blank_iff s : lstrip s = [] -> blank s = true.
Proof.
  induction s as [|c s IH]; simpl; [reflexivity|].
  destruct (isspace c); [exact IH | discriminate].
Qed.

Lemma lstrip_app s w :
  lstrip (s ++ w) = if blank s then lstrip w else lstrip s ++ w.
Proof.
  induction s as [|c s IH]; simpl; [reflexivity|].
  destruct (isspace c); [exact IH | reflexivity].
Qed.

Lemma strip_blank s : blank s = true -> strip s = [].
Proof. intros H. unfold strip. now rewrite lstrip_blank. Qed.

Lemma strip_nil_blank s : strip s = [] -> blank s = true.
Proof.
  unfold strip. intros H. apply rstrip_nil_blank in H.
  induction s as [|c s IH]; simpl in *; [reflexivity|].
  destruct (isspace c) eqn:E; [now apply IH|].
  simpl in H. now rewrite E in H.
Qed.

Lemma strip_app_blank s w : blank w = true -> strip (s ++ w) = strip s.
Proof.
  intros Hw. unfold strip. rewrite lstrip_app.
  destruct (blank s) eqn:B.
  - now rewrite (lstrip_blank w), (lstrip_blank s).
  - now apply rstrip_app_blank.
Qed.

Lemma strip_cons_space c s : isspace c = true -> strip (c :: s) = strip s.
Proof. intros H. unfold strip. simpl. now rewrite H. Qed.

Lemma blank_lower s : blank (lower s) = blank s.
Proof.
  induction s as [|c s IH]; simpl; [reflexivity|].
  now rewrite isspace_lower_char, <- IH.
Qed.

Lemma lstrip_lower s : lstrip (lower s) = lower (lstrip s).
Proof.
  induction s as [|c s IH]; simpl; [reflexivity|].
  rewrite isspace_lower_char. now destruct (isspace c).
Qed.

Lemma rstrip_lower s : rstrip (lower s) = lower (rstrip s).
Proof.
  induction s as [|c s IH]; [reflexivity|].
  change (lower (c :: s)) with (lower_char c :: lower s).
  rewrite !rstrip_cons, isspace_lower_char, blank_lower, IH.
  now destruct (isspace c && blank s).
Qed.

(** Lowercasing and trimming commute: the generator trims and then
    lowercases, the grader lowercases and then trims. *)
Lemma strip_lower s : strip (lower s) = lower (strip s).
Proof. unfold strip. now rewrite lstrip_lower, rstrip_lower. Qed.

(** ** Splitting *)

Lemma split_nonempty sep s : exists h t, split sep s = h :: t.
Proof.
  induction s as [|c s [h [t E]]]; simpl; [now eexists; eexists|].
  destruct (Ascii.eqb c sep); [now eexists; eexists|].
  rewrite E. now eexists; eexists.
Qed.

Lemma split_cons_sep sep s : split sep (sep :: s) = [] :: split sep s.
Proof. simpl. now rewrite Ascii.eqb_refl. Qed.

Lemma split_cons_other sep c s h t :
  Ascii.eqb c sep = false -> split sep s = h :: t ->
  split sep (c :: s) = (c :: h) :: t.
Proof. intros Hc E. simpl. now rewrite Hc, E. Qed.

(** A piece without the separator is one field. *)
Lemma split_no_sep sep s :
  existsb (fun c => Ascii.eqb c sep) s = false -> split sep s = [s].
Proof.
  induction s as [|c s IH]; simpl; [reflexivity|].
  intros H. apply orb_false_iff in H as [Hc Hs]. now rewrite Hc, IH.
Qed.

(** Text without the separator in front of [u] lengthens the first field
    of [u]. *)
Lemma split_app_no_sep sep q u h t :
  existsb (fun c => Ascii.eqb c sep) q = false -> split sep u = h :: t ->
  split sep (q ++ u) = (q ++ h) :: t.
Proof.
  intros Hq E. induction q as [|c q IH]; simpl in *; [exact E|].
  apply orb_false_iff in Hq as [Hc Hq]. now rewrite Hc, IH.
Qed.

Lemma split_app_sep sep a b :
  split sep (a ++ sep :: b) = split sep a ++ split sep b.
Proof.
  induction a as [|c a IH]; simpl.
  - now rewrite Ascii.eqb_refl.
  - destruct (Ascii.eqb c sep); rewrite IH; [reflexivity|].
    destruct (split_nonempty sep a) as [h [t E]]. now rewrite E.
Qed.

(** Text without the separator behind [s] lengthens the last field. *)
Lemma split_app_tail sep s w :
  existsb (fun c => Ascii.eqb c sep) w = false ->
  split sep (s ++ w)
  = removelast (split sep s) ++ [last (split sep s) [] ++ w].
Proof.
  intros Hw. induction s as [|c s IH]; simpl.
  - now apply split_no_sep.
  - destruct (Ascii.eqb c sep).
    + rewrite IH. destruct (split_nonempty sep s) as [h [t E]]. now rewrite E.
    + rewrite IH. destruct (split_nonempty sep s) as [h [t E]]. rewrite E.
      destruct t as [|h' t]; [reflexivity|].
      change (removelast (h :: h' :: t)) with (h :: removelast (h' :: t)).
      change (removelast ((c :: h) :: h' :: t))
        with ((c :: h) :: removelast (h' :: t)).
      reflexivity.
Qed.

Lemma blank_no_comma w :
  blank w = true -> existsb (fun c => Ascii.eqb c COMMA) w = false.
Proof.
  induction w as [|c w IH]; simpl; [reflexivity|].
  intros H. apply andb_true_iff in H as [Hc Hw].
  now rewrite (isspace_not_comma c Hc), IH.
Qed.

Lemma map_removelast {A B} (f : A -> B) l :
  removelast (map f l) = map f (removelast l).
Proof.
  induction l as [|x [|y l] IH]; [reflexivity..|].
  change (f x :: removelast (map f (y :: l)) = f x :: map f (removelast (y :: l))).
  now rewrite IH.
Qed.

Lemma map_tail {A B} (f : A -> B) l : tl (map f l) = map f (tl l).
Proof. now destruct l. Qed.

Lemma map_last {A B} (f : A -> B) l d : l <> [] ->
  last (map f l) (f d) = f (last l d).
Proof.
  induction l as [|x [|y l] IH]; [congruence|reflexivity|].
  intros _. change (last (map f (y :: l)) (f d) = f (last (y :: l) d)).
  apply IH. discriminate.
Qed.

Lemma length_split_app_tail s w :
  blank w = true ->
  List.length (split COMMA (s ++ w)) = List.length (split COMMA s).
Proof.
  intros Hw. rewrite split_app_tail by now apply blank_no_comma.
  destruct (split_nonempty COMMA s) as [h [t E]].
  assert (HL : split COMMA s <> []) by (rewrite E; discriminate).
  apply (app_removelast_last []) in HL.
  apply (f_equal (@List.length str)) in HL.
  rewrite length_app in *. simpl in *. symmetry. exact HL.
Qed.

(** The trimmed fields of a line do not see whitespace at its end *)
Lemma fields_app_blank s w :
  blank w = true ->
  map strip (split COMMA (s ++ w)) = map strip (split COMMA s).
Proof.
  intros Hw. rewrite split_app_tail by now apply blank_no_comma.
  destruct (split_nonempty COMMA s) as [h [t E]].
  assert (HL : split COMMA s <> []) by (rewrite E; discriminate).
  apply (app_removelast_last []) in HL.
  apply (f_equal (map strip)) in HL. rewrite HL.
  rewrite !map_app. simpl. now rewrite strip_app_blank.
Qed.

(** nor at its start. *)
Lemma fields_cons_space c s :
  isspace c = true ->
  map strip (split COMMA (c :: s)) = map strip (split COMMA s).
Proof.
  intros Hc. destruct (split_nonempty COMMA s) as [h [t E]].
  rewrite (split_cons_other COMMA c s h t (isspace_not_comma c Hc) E), E.
  simpl. now rewrite strip_cons_space.
Qed.

(** ** Indexing and slicing *)

Lemma getitem_nth {A} (l : list A) (n : nat) d :
  (n < List.length l)%nat -> getitem l (Z.of_nat n) = Ok (nth n l d).
Proof.
  intros H. unfold getitem, len.
  replace (Z.of_nat n <? 0) with false by (symmetry; apply Z.ltb_ge; lia).
  replace (0 <=? Z.of_nat n) with true by (symmetry; apply Z.leb_le; lia).
  replace (Z.of_nat n <? Z.of_nat (List.length l)) with true
    by (symmetry; apply Z.ltb_lt; lia).
  simpl. rewrite Nat2Z.id.
  destruct (nth_error l n) eqn:E.
  - now rewrite (nth_error_nth l n d E).
  - apply nth_error_None in E. lia.
Qed.

Lemma getitem_0 {A} (l : list A) d :
  (0 < List.length l)%nat -> getitem l 0 = Ok (nth 0 l d).
Proof. exact (getitem_nth l 0 d). Qed.

Lemma getitem_1 {A} (l : list A) d :
  (1 < List.length l)%nat -> getitem l 1 = Ok (nth 1 l d).
Proof. exact (getitem_nth l 1 d). Qed.

Lemma nth_error_last {A} (l : list A) d :
  l <> [] -> nth_error l (List.length l - 1) = Some (last l d).
Proof.
  induction l as [|x [|y l] IH]; [congruence|reflexivity|].
  intros _. specialize (IH ltac:(discriminate)).
  change (List.length (x :: y :: l) - 1)%nat with (S (List.length l)).
  change (List.length (y :: l) - 1)%nat with (List.length l - 0)%nat in IH.
  rewrite Nat.sub_0_r in IH. exact IH.
Qed.

Lemma getitem_last {A} (l : list A) d :
  l <> [] -> getitem l (-1) = Ok (last l d).
Proof.
  intros H. unfold getitem, len.
  assert (Hl : (0 < List.length l)%nat) by (destruct l; simpl; [congruence | lia]).
  change (-1 <? 0) with true. cbv iota.
  replace (0 <=? -1 + Z.of_nat (List.length l)) with true
    by (symmetry; apply Z.leb_le; lia).
  replace (-1 + Z.of_nat (List.length l) <? Z.of_nat (List.length l)) with true
    by (symmetry; apply Z.ltb_lt; lia).
  cbn [andb]. replace (Z.to_nat (-1 + Z.of_nat (List.length l)))
    with (List.length l - 1)%nat by lia.
  now rewrite (nth_error_last l d H).
Qed.

(** [l[1:-1]] is the list without its first and its last element. *)
Lemma slice_middle {A} (l : list A) : slice l 1 (-1) = removelast (tl l).
Proof.
  unfold slice, clamp, len. change (1 <? 0) with false.
  change (-1 <? 0) with true. cbv iota.
  destruct l as [|x l]; [reflexivity|].
  change (List.length (x :: l)) with (S (List.length l)).
  replace (Z.to_nat (Z.max 0 (Z.min 1 (Z.of_nat (S (List.length l))))))
    with 1%nat by lia.
  replace (Z.to_nat (Z.max 0 (Z.min (-1 + Z.of_nat (S (List.length l)))
                                    (Z.of_nat (S (List.length l))))))
    with (List.length l) by lia.
  simpl tl. change (skipn 1 (x :: l)) with l.
  rewrite removelast_firstn_len. f_equal. lia.
Qed.

(** ** The loop body and the loop *)

Lemma is_mc_true qt : is_mc qt = true -> qt = MULTIPLE_CHOICE.
Proof.
  unfold is_mc, str_eqb.
  now destruct (list_eq_dec ascii_dec qt MULTIPLE_CHOICE).
Qed.

Lemma is_mc_false qt : qt <> MULTIPLE_CHOICE -> is_mc qt = false.
Proof.
  unfold is_mc, str_eqb.
  now destruct (list_eq_dec ascii_dec qt MULTIPLE_CHOICE).
Qed.

Lemma line_records_blank qt line : blank line = true -> line_records qt line = [].
Proof.
  intros H. unfold line_records, well_formed.
  rewrite (split_no_sep COMMA line (blank_no_comma line H)).
  unfold min_fields. now destruct (is_mc qt).
Qed.

Lemma truthy_false s : truthy s = false -> s = [].
Proof. now destruct s. Qed.

(** The loop body appends what [line_records] says and never raises. *)
Lemma parse_line_spec qt acc line :
  parse_line qt acc line = Ok (acc ++ line_records qt line).
Proof.
  unfold parse_line.
  destruct (truthy (strip line)) eqn:T; simpl.
  2:{ apply truthy_false, strip_nil_blank in T.
      now rewrite line_records_blank, app_nil_r. }
  unfold line_records, well_formed, min_fields, record_of, answer_field.
  fold (is_mc qt).
  destruct (split_nonempty COMMA line) as [h [t E]].
  unfold len. rewrite length_map.
  destruct (is_mc qt).
  - destruct (Nat.leb_spec 3 (List.length (split COMMA line))) as [L|L].
    + replace (Z.of_nat (List.length (split COMMA line)) <? 3) with false
        by (symmetry; apply Z.ltb_ge; lia).
      rewrite (getitem_0 (A:=str) _ []) by (rewrite length_map; lia).
      rewrite (getitem_last (A:=str) _ []) by (rewrite E; discriminate).
      simpl. rewrite slice_middle.
      change (@nil ascii) with (strip []) at 2.
      rewrite map_last by (rewrite E; discriminate).
      rewrite E. simpl map. simpl tl. simpl nth. simpl hd.
      now rewrite map_removelast.
    + replace (Z.of_nat (List.length (split COMMA line)) <? 3) with true
        by (symmetry; apply Z.ltb_lt; lia).
      now rewrite app_nil_r.
  - destruct (Nat.leb_spec 2 (List.length (split COMMA line))) as [L|L].
    + replace (Z.of_nat (List.length (split COMMA line)) <? 2) with false
        by (symmetry; apply Z.ltb_ge; lia).
      rewrite (getitem_0 (A:=str) _ []) by (rewrite length_map; lia).
      rewrite (getitem_1 (A:=str) _ []) by (rewrite length_map; lia).
      simpl. change (@nil ascii) with (strip []) at 2.
      rewrite map_nth. rewrite E. reflexivity.
    + replace (Z.of_nat (List.length (split COMMA line)) <? 2) with true
        by (symmetry; apply Z.ltb_lt; lia).
      now rewrite app_nil_r.
Qed.

Lemma for_each_parse_line qt lines acc :
  for_each (parse_line qt) lines acc = Ok (acc ++ flat_map (line_records qt) lines).
Proof.
  revert acc. induction lines as [|l lines IH]; intros acc; simpl.
  - now rewrite app_nil_r.
  - rewrite parse_line_spec. simpl. now rewrite IH, app_assoc.
Qed.

(** What a line adds does not see whitespace at either end of the line. *)
Lemma line_records_cons_space qt c s :
  isspace c = true -> line_records qt (c :: s) = line_records qt s.
Proof.
  intros Hc. unfold line_records, well_formed.
  destruct (split_nonempty COMMA s) as [h [t E]].
  rewrite (split_cons_other COMMA c s h t (isspace_not_comma c Hc) E), E.
  simpl List.length.
  destruct (min_fields qt <=? S (List.length t))%nat; [|reflexivity].
  f_equal. unfold record_of, answer_field. simpl hd. simpl tl.
  rewrite (strip_cons_space c h Hc).
  destruct (is_mc qt).
  - destruct t as [|h' t]; [simpl; now rewrite strip_cons_space|reflexivity].
  - reflexivity.
Qed.

Lemma line_records_app_blank qt s w :
  blank w = true -> line_records qt (s ++ w) = line_records qt s.
Proof.
  intros Hw. unfold line_records, well_formed.
  rewrite length_split_app_tail by assumption.
  destruct (min_fields qt <=? List.length (split COMMA s))%nat eqn:L;
    [|reflexivity].
  f_equal. unfold record_of, answer_field.
  pose proof (fields_app_blank s w Hw) as F.
  destruct (split_nonempty COMMA s) as [h [t E]].
  destruct (split_nonempty COMMA (s ++ w)) as [h2 [t2 E2]].
  assert (N1 : split COMMA s <> []) by (rewrite E; discriminate).
  assert (N2 : split COMMA (s ++ w) <> []) by (rewrite E2; discriminate).
  assert (Hhd : strip (hd [] (split COMMA (s ++ w))) = strip (hd [] (split COMMA s))).
  { rewrite E, E2 in *. simpl in *. congruence. }
  assert (Hlast : strip (last (split COMMA (s ++ w)) [])
                  = strip (last (split COMMA s) [])).
  { rewrite <- !(map_last strip) by assumption. now rewrite F. }
  assert (Hmid : map strip (removelast (tl (split COMMA (s ++ w))))
                 = map strip (removelast (tl (split COMMA s)))).
  { rewrite <- !map_removelast, <- !map_tail. now rewrite F. }
  assert (Hsnd : strip (nth 1 (split COMMA (s ++ w)) [])
                 = strip (nth 1 (split COMMA s) [])).
  { change (strip (nth 1 (split COMMA (s ++ w)) []))
      with ((fun x => strip x) (nth 1 (split COMMA (s ++ w)) [])).
    rewrite <- !(map_nth strip). now rewrite F. }
  rewrite Hhd. destruct (is_mc qt).
  - now rewrite Hlast, Hmid.
  - now rewrite Hsnd.
Qed.

(** ** Trimming the whole text changes nothing

    [questions_text.strip()] removes blank lines at both ends and the
    whitespace around the first and the last line; no line gains or loses
    a record by it. *)

Section StripText.

Context {R : Type} (f : str -> list R).
Hypothesis f_nil : f [] = [].
Hypothesis f_cons_space : forall c s, isspace c = true -> f (c :: s) = f s.
Hypothesis f_app_blank : forall s w, blank w = true -> f (s ++ w) = f s.

Lemma lines_cons_space c t :
  isspace c = true ->
  flat_map f (split LF (c :: t)) = flat_map f (split LF t).
Proof.
  intros Hc. simpl. destruct (Ascii.eqb c LF).
  - simpl. now rewrite f_nil.
  - destruct (split_nonempty LF t) as [h [tl E]]. rewrite E. simpl.
    now rewrite f_cons_space.
Qed.

Lemma lines_lstrip t :
  flat_map f (split LF (lstrip t)) = flat_map f (split LF t).
Proof.
  induction t as [|c t IH]; [reflexivity|].
  simpl lstrip. destruct (isspace c) eqn:Hc; [|reflexivity].
  now rewrite IH, lines_cons_space.
Qed.

Lemma no_LF_app q c :
  existsb (fun x => Ascii.eqb x LF) q = false -> Ascii.eqb c LF = false ->
  existsb (fun x => Ascii.eqb x LF) (q ++ [c]) = false.
Proof. intros Hq Hc. rewrite existsb_app. simpl. now rewrite Hq, Hc. Qed.

Lemma lines_blank_tail w : forall q,
  existsb (fun x => Ascii.eqb x LF) q = false -> blank w = true ->
  flat_map f (split LF (q ++ w)) = f q.
Proof.
  induction w as [|c w IH]; intros q Hq Hw.
  - rewrite app_nil_r, split_no_sep by assumption. simpl. apply app_nil_r.
  - simpl in Hw. apply andb_true_iff in Hw as [Hc Hw].
    destruct (Ascii.eqb_spec c LF) as [->|Hn].
    + rewrite split_app_sep, flat_map_app, split_no_sep by assumption.
      simpl. rewrite app_nil_r.
      rewrite <- (app_nil_l w), (IH [] eq_refl Hw), f_nil. apply app_nil_r.
    + apply Ascii.eqb_neq in Hn.
      change (q ++ c :: w) with (q ++ [c] ++ w). rewrite app_assoc.
      rewrite IH by (try apply no_LF_app; assumption).
      apply f_app_blank. simpl. now rewrite Hc.
Qed.

Lemma lines_rstrip t : forall q,
  existsb (fun x => Ascii.eqb x LF) q = false ->
  flat_map f (split LF (q ++ rstrip t)) = flat_map f (split LF (q ++ t)).
Proof.
  induction t as [|c t IH]; intros q Hq; [reflexivity|].
  rewrite rstrip_cons. destruct (isspace c && blank t) eqn:B.
  - rewrite (lines_blank_tail (c :: t) q Hq) by exact B.
    rewrite app_nil_r, split_no_sep by assumption. simpl. apply app_nil_r.
  - destruct (Ascii.eqb_spec c LF) as [->|Hn].
    + rewrite !split_app_sep, !flat_map_app. f_equal.
      exact (IH [] eq_refl).
    + apply Ascii.eqb_neq in Hn.
      change (q ++ c :: rstrip t) with (q ++ [c] ++ rstrip t).
      change (q ++ c :: t) with (q ++ [c] ++ t).
      rewrite !app_assoc. apply IH. now apply no_LF_app.
Qed.

Lemma lines_strip t :
  flat_map f (split LF (strip t)) = flat_map f (split LF t).
Proof.
  unfold strip. rewrite <- (lines_lstrip t).
  exact (lines_rstrip (lstrip t) [] eq_refl).
Qed.

End StripText.

Lemma line_records_nil qt : line_records qt [] = [].
Proof. now apply line_records_blank. Qed.

(** The parser returns, for every text, what its lines add, in order. *)
Lemma parse_questions_lines qt text :
  parse_questions qt text = Ok (flat_map (line_records qt) (split LF text)).
Proof.
  unfold parse_questions. rewrite for_each_parse_line. simpl. f_equal.
  apply lines_strip.
  - apply line_records_nil.
  - apply line_records_cons_space.
  - apply line_records_app_blank.
Qed.

(** ** Texts given by their lines *)

Lemma join_cons sep x y rest :
  join sep (x :: y :: rest) = x ++ sep ++ join sep (y :: rest).
Proof. reflexivity. Qed.

Section Unlines.

Context {R : Type} (f : str -> list R).
Hypothesis f_nil : f [] = [].

Lemma lines_unlines_cons x rest :
  flat_map f (split LF (unlines (x :: rest)))
  = flat_map f (split LF x) ++ flat_map f (split LF (unlines rest)).
Proof.
  destruct rest as [|y rest].
  - simpl. now rewrite f_nil, !app_nil_r.
  - unfold unlines. rewrite join_cons. simpl app.
    now rewrite split_app_sep, flat_map_app.
Qed.

Lemma lines_unlines_app l1 l2 :
  flat_map f (split LF (unlines (l1 ++ l2)))
  = flat_map f (split LF (unlines l1)) ++ flat_map f (split LF (unlines l2)).
Proof.
  induction l1 as [|x l1 IH].
  - simpl. now rewrite f_nil.
  - change ((x :: l1) ++ l2) with (x :: (l1 ++ l2)).
    now rewrite !lines_unlines_cons, IH, app_assoc.
Qed.

End Unlines.

(** A text is parsed line by line: the records of the lines before, then
    those of the line, then those of the lines after. *)
Lemma parse_questions_around qt before line after :
  existsb (fun c => Ascii.eqb c LF) line = false ->
  parse_questions qt (unlines (before ++ line :: after))
  = rb <- parse_questions qt (unlines before) ;;
    ra <- parse_questions qt (unlines after) ;;
    Ok (rb ++ line_records qt line ++ ra).
Proof.
  intros Hl. rewrite !parse_questions_lines. simpl.
  rewrite (lines_unlines_app _ (line_records_nil qt)).
  rewrite (lines_unlines_cons _ (line_records_nil qt)).
  rewrite (split_no_sep LF line Hl). simpl. now rewrite app_nil_r.
Qed.

Lemma one_line_no_LF line :
  one_line line = true -> existsb (fun c => Ascii.eqb c LF) line = false.
Proof. unfold one_line. now destruct (existsb _ line). Qed.

(** A text of one line. *)
Lemma parse_questions_one_line qt line :
  one_line line = true -> parse_questions qt line = Ok (line_records qt line).
Proof.
  intros H. rewrite parse_questions_lines.
  rewrite (split_no_sep LF line (one_line_no_LF line H)). simpl.
  now rewrite app_nil_r.
Qed.

Lemma in_parsed qt text qs q :
  parse_questions qt text = Ok qs -> In q qs ->
  exists line, In line (split LF text) /\ well_formed qt line = true
               /\ q = record_of qt (split COMMA line).
Proof.
  rewrite parse_questions_lines. intros [= <-] Hq.
  apply in_flat_map in Hq as [line [Hl Hq]]. exists line. split; [exact Hl|].
  unfold line_records in Hq. destruct (well_formed qt line); [|contradiction].
  destruct Hq as [<-|[]]. now split.
Qed.

(** ** The parser, line by line *)

(** C1. A multiple-choice line with at least three comma-separated fields
    adds exactly one record, between the records of the lines before it and
    those of the lines after it: its question is the first field trimmed,
    its options are the fields between the first and the last, trimmed and
    in order, and its answer_hash is the SHA-256 hex digest of the last
    field, trimmed and lowercased. *)
Theorem multiple_choice_line_record (before : list str) (line : str)
  (after : list str) :
  one_line line = true ->
  (3 <= List.length (split COMMA line))%nat ->
  let fs := split COMMA line in
  exists rb ra,
    parse_questions MULTIPLE_CHOICE (unlines before) = Ok rb /\
    parse_questions MULTIPLE_CHOICE (unlines after) = Ok ra /\
    parse_questions MULTIPLE_CHOICE (unlines (before ++ line :: after))
    = Ok (rb
          ++ [[(K_QUESTION, PStr (strip (hd [] fs)));
               (K_OPTIONS, PList (map strip (removelast (tl fs))));
               (K_ANSWER_HASH, PStr (sha256_hex (lower (strip (last fs [])))))]]
          ++ ra).
Proof.
  intros Hl Hn fs.
  rewrite (parse_questions_around _ before line after (one_line_no_LF _ Hl)).
  rewrite !parse_questions_lines. simpl.
  eexists; eexists. split; [reflexivity|]. split; [reflexivity|].
  unfold line_records, well_formed. change (min_fields MULTIPLE_CHOICE) with 3%nat.
  apply Nat.leb_le in Hn. now rewrite Hn.
Qed.

Lemma multiple_choice_line_record_witness :
  let before := [s2l "Capital of France?,Paris,Rome,Paris"; s2l "  "] in
  let line := s2l " 2+2? , 3,4 ,5, 4 " in
  let after := [s2l "too,short"] in
  one_line line = true /\
  (3 <= List.length (split COMMA line))%nat /\
  exists rb ra,
    parse_questions MULTIPLE_CHOICE (unlines before) = Ok rb /\
    parse_questions MULTIPLE_CHOICE (unlines after) = Ok ra /\
    parse_questions MULTIPLE_CHOICE (unlines (before ++ line :: after))
    = Ok (rb
          ++ [[(K_QUESTION, PStr (s2l "2+2?"));
               (K_OPTIONS, PList [s2l "3"; s2l "4"; s2l "5"]);
               (K_ANSWER_HASH, PStr (sha256_hex (s2l "4")))]]
          ++ ra).
Proof.
  split; [reflexivity|]. split; [vm_compute; lia|].
  apply (multiple_choice_line_record
           [s2l "Capital of France?,Paris,Rome,Paris"; s2l "  "]
           (s2l " 2+2? , 3,4 ,5, 4 ") [s2l "too,short"]).
  - reflexivity.
  - vm_compute; lia.
Defined.

(** C2. With any other quiz type, a line with at least two comma-separated
    fields adds exactly one record: its question is the first field
    trimmed, its answer_hash is the SHA-256 hex digest of the answer field
    (the second one), trimmed and lowercased, and it has no options key. *)
Theorem text_answer_line_record (quiz_type : str) (before : list str)
  (line : str) (after : list str) :
  quiz_type <> MULTIPLE_CHOICE ->
  one_line line = true ->
  (2 <= List.length (split COMMA line))%nat ->
  let fs := split COMMA line in
  exists rb ra q,
    parse_questions quiz_type (unlines before) = Ok rb /\
    parse_questions quiz_type (unlines after) = Ok ra /\
    parse_questions quiz_type (unlines (before ++ line :: after))
    = Ok (rb ++ [q] ++ ra) /\
    q = [(K_QUESTION, PStr (strip (hd [] fs)));
         (K_ANSWER_HASH, PStr (sha256_hex (lower (strip (nth 1 fs [])))))] /\
    ~ In K_OPTIONS (keys q).
Proof.
  intros Hq Hl Hn fs.
  rewrite (parse_questions_around _ before line after (one_line_no_LF _ Hl)).
  rewrite !parse_questions_lines. simpl.
  eexists; eexists; eexists. split; [reflexivity|]. split; [reflexivity|].
  unfold line_records, well_formed, min_fields, record_of, answer_field.
  rewrite (is_mc_false _ Hq). apply Nat.leb_le in Hn. rewrite Hn.
  split; [reflexivity|]. split; [reflexivity|].
  simpl. intros [H|[H|[]]]; discriminate.
Qed.

Lemma text_answer_line_record_witness :
  let quiz_type := s2l "Text Answer" in
  let before := [s2l "Capital of France?, Paris"] in
  let line := s2l "2+2? ,  Four" in
  let after := [s2l ""; s2l "nocomma"] in
  quiz_type <> MULTIPLE_CHOICE /\
  one_line line = true /\
  (2 <= List.length (split COMMA line))%nat /\
  exists rb ra q,
    parse_questions quiz_type (unlines before) = Ok rb /\
    parse_questions quiz_type (unlines after) = Ok ra /\
    parse_questions quiz_type (unlines (before ++ line :: after))
    = Ok (rb ++ [q] ++ ra) /\
    q = [(K_QUESTION, PStr (s2l "2+2?"));
         (K_ANSWER_HASH, PStr (sha256_hex (s2l "four")))] /\
    ~ In K_OPTIONS (keys q).
Proof.
  split; [discriminate|]. split; [reflexivity|]. split; [vm_compute; lia|].
  apply (text_answer_line_record (s2l "Text Answer")
           [s2l "Capital of France?, Paris"] (s2l "2+2? ,  Four")
           [s2l ""; s2l "nocomma"]).
  - discriminate.
  - reflexivity.
  - vm_compute; lia.
Defined.

(** C9. In text-answer mode the answer is the second field, not the last:
    a line with more than two fields gives the record of its first two
    fields, with the answer_hash computed from the second field alone, and
    two lines that agree on their first two fields give the same record
    whatever follows. *)
Theorem text_answer_uses_second_field (quiz_type line line' : str) :
  quiz_type <> MULTIPLE_CHOICE ->
  one_line line = true -> one_line line' = true ->
  (2 < List.length (split COMMA line))%nat ->
  (2 <= List.length (split COMMA line'))%nat ->
  firstn 2 (split COMMA line') = firstn 2 (split COMMA line) ->
  parse_questions quiz_type line
  = Ok [[(K_QUESTION, PStr (strip (nth 0 (split COMMA line) [])));
         (K_ANSWER_HASH,
          PStr (sha256_hex (lower (strip (nth 1 (split COMMA line) [])))))]]
  /\ parse_questions quiz_type line' = parse_questions quiz_type line.
Proof.
  intros Hq Hl Hl' Hn Hn' Hf.
  rewrite !parse_questions_one_line by assumption.
  unfold line_records, well_formed, min_fields, record_of, answer_field.
  rewrite (is_mc_false _ Hq).
  replace (2 <=? List.length (split COMMA line))%nat with true
    by (symmetry; apply Nat.leb_le; lia).
  replace (2 <=? List.length (split COMMA line'))%nat with true
    by (symmetry; apply Nat.leb_le; lia).
  destruct (split COMMA line) as [|a [|b l]]; simpl in Hn; try lia.
  destruct (split COMMA line') as [|a' [|b' l']]; simpl in Hn'; try lia.
  simpl in Hf. injection Hf as -> ->. now split.
Qed.

Lemma text_answer_uses_second_field_witness :
  let quiz_type := s2l "Text Answer" in
  let line := s2l "Largest planet?, Jupiter ,Saturn,Mars" in
  let line' := s2l "Largest planet?, Jupiter " in
  parse_questions quiz_type line
  = Ok [[(K_QUESTION, PStr (s2l "Largest planet?"));
         (K_ANSWER_HASH, PStr (sha256_hex (s2l "jupiter")))]]
  /\ parse_questions quiz_type line' = parse_questions quiz_type line.
Proof.
  apply (text_answer_uses_second_field (s2l "Text Answer")
           (s2l "Largest planet?, Jupiter ,Saturn,Mars")
           (s2l "Largest planet?, Jupiter ")).
  - discriminate.
  - reflexivity.
  - reflexivity.
  - vm_compute; lia.
  - vm_compute; lia.
  - reflexivity.
Defined.

(** ** Blank and malformed lines *)

Lemma well_formed_not_blank qt line :
  well_formed qt line = true -> blank line = false.
Proof.
  intros W. destruct (blank line) eqn:B; [|reflexivity].
  unfold well_formed in W.
  rewrite (split_no_sep COMMA line (blank_no_comma line B)) in W.
  unfold min_fields in W. now destruct (is_mc qt).
Qed.

Lemma length_line_records qt lines :
  List.length (flat_map (line_records qt) lines)
  = List.length (filter (well_formed qt) lines).
Proof.
  induction lines as [|l lines IH]; [reflexivity|].
  simpl. rewrite length_app, IH. unfold line_records.
  now destruct (well_formed qt l).
Qed.

Lemma well_formed_le_nonblank qt lines :
  (List.length (filter (well_formed qt) lines)
   <= List.length (filter (fun l => negb (blank l)) lines))%nat.
Proof.
  induction lines as [|l lines IH]; [reflexivity|].
  simpl. destruct (well_formed qt l) eqn:W.
  - rewrite (well_formed_not_blank qt l W). simpl. lia.
  - destruct (negb (blank l)); simpl; lia.
Qed.

Lemma well_formed_lt_nonblank qt lines line :
  In line lines -> blank line = false -> well_formed qt line = false ->
  (List.length (filter (well_formed qt) lines)
   < List.length (filter (fun l => negb (blank l)) lines))%nat.
Proof.
  intros Hin Hb Hw. induction lines as [|l lines IH]; [contradiction|].
  pose proof (well_formed_le_nonblank qt lines) as Le.
  simpl. destruct Hin as [->|Hin].
  - rewrite Hw, Hb. simpl. lia.
  - specialize (IH Hin). destruct (well_formed qt l) eqn:W.
    + rewrite (well_formed_not_blank qt l W). simpl. lia.
    + destruct (negb (blank l)); simpl; lia.
Qed.

(** C5. The parser returns a record list for every text and never raises,
    and [generate_python_code] returns its script without putting anything
    on the page.  A blank line and a line with too few fields for the quiz
    type (fewer than three for multiple choice, fewer than two otherwise)
    add no record: the result is the same as without the line.  The number
    of records is at most the number of non-blank lines, and strictly less
    when some non-blank line is malformed. *)
Theorem malformed_lines_dropped (quiz_type text : str) :
  exists qs,
    parse_questions quiz_type text = Ok qs /\
    (forall title instructor w,
        generate_python_code title instructor quiz_type text w
        = (Ok (render title instructor quiz_type qs), w)) /\
    (List.length qs
     <= List.length (filter (fun l => negb (blank l)) (split LF text)))%nat /\
    ((exists line, In line (split LF text) /\ blank line = false /\
                   well_formed quiz_type line = false) ->
     (List.length qs
      < List.length (filter (fun l => negb (blank l)) (split LF text)))%nat) /\
    (forall before line after,
        one_line line = true ->
        blank line = true \/ well_formed quiz_type line = false ->
        parse_questions quiz_type (unlines (before ++ line :: after))
        = parse_questions quiz_type (unlines (before ++ after))).
Proof.
  exists (flat_map (line_records quiz_type) (split LF text)).
  split; [apply parse_questions_lines|].
  split.
  { intros title instructor w.
    unfold generate_python_code, bindP, lift, retP.
    now rewrite parse_questions_lines. }
  rewrite length_line_records.
  split; [apply well_formed_le_nonblank|].
  split.
  - intros [line [Hin [Hb Hw]]]. now apply (well_formed_lt_nonblank _ _ line).
  - intros before line after Hl Hbad.
    rewrite (parse_questions_around _ _ _ _ (one_line_no_LF _ Hl)).
    rewrite !parse_questions_lines. simpl.
    rewrite (lines_unlines_app _ (line_records_nil quiz_type)).
    assert (E : line_records quiz_type line = []).
    { destruct Hbad as [B|W]; [now apply line_records_blank|].
      unfold line_records. now rewrite W. }
    now rewrite E.
Qed.

Lemma malformed_lines_dropped_witness :
  let text := s2l "2+2?,3,4,4
   
only,two
Capital of France?,Paris,Rome,Paris" in
  exists qs,
    parse_questions MULTIPLE_CHOICE text = Ok qs /\
    List.length qs = 2%nat /\
    List.length (filter (fun l => negb (blank l)) (split LF text)) = 3%nat /\
    parse_questions MULTIPLE_CHOICE
      (unlines ([s2l "2+2?,3,4,4"] ++ s2l "only,two" :: []))
    = parse_questions MULTIPLE_CHOICE (unlines ([s2l "2+2?,3,4,4"] ++ [])).
Proof.
  intros text.
  destruct (malformed_lines_dropped MULTIPLE_CHOICE text)
    as [qs [Hp [_ [Hle [Hlt Hdrop]]]]].
  exists qs. split; [exact Hp|].
  assert (E : parse_questions MULTIPLE_CHOICE text
              = Ok [record_of MULTIPLE_CHOICE (split COMMA (s2l "2+2?,3,4,4"));
                    record_of MULTIPLE_CHOICE
                      (split COMMA (s2l "Capital of France?,Paris,Rome,Paris"))])
    by (vm_compute; reflexivity).
  rewrite E in Hp. injection Hp as <-.
  split; [reflexivity|]. split; [reflexivity|].
  apply Hdrop; [reflexivity | right; reflexivity].
Defined.

(** ** The shape of a digest *)

Lemma length_round v kw : List.length v = 8%nat -> List.length (Sha256.round v kw) = 8%nat.
Proof.
  intros H. unfold Sha256.round.
  destruct v as [|a [|b [|c [|d [|e [|f [|g [|h [|x v]]]]]]]]]; try discriminate.
  reflexivity.
Qed.

Lemma length_fold_round l v :
  List.length v = 8%nat -> List.length (fold_left Sha256.round l v) = 8%nat.
Proof.
  revert v. induction l as [|kw l IH]; intros v H; [exact H|].
  simpl. apply IH. now apply length_round.
Qed.

Lemma length_compress h block :
  List.length h = 8%nat -> List.length (Sha256.compress h block) = 8%nat.
Proof.
  intros H. unfold Sha256.compress.
  rewrite length_map, length_combine, length_fold_round, H by exact H.
  reflexivity.
Qed.

Lemma length_digest_words msg : List.length (Sha256.digest_words msg) = 8%nat.
Proof.
  unfold Sha256.digest_words.
  generalize (Sha256.chunks 64 (Sha256.pad msg)).
  assert (H : List.length Sha256.H0 = 8%nat) by reflexivity.
  revert H. generalize Sha256.H0.
  intros h H l. revert h H. induction l as [|b l IH]; intros h H; [exact H|].
  simpl. apply IH. now apply length_compress.
Qed.

Lemma be_bytes_4 x :
  Sha256.be_bytes 4 x
  = [Z.land (Z.shiftr x 24) 255; Z.land (Z.shiftr x 16) 255;
     Z.land (Z.shiftr x 8) 255; Z.land (Z.shiftr x 0) 255].
Proof. reflexivity. Qed.

Lemma land_255_range x : 0 <= Z.land x 255 < 256.
Proof.
  change 255 with (Z.ones 8). rewrite Z.land_ones by lia.
  apply Z.mod_pos_bound. reflexivity.
Qed.

Lemma hex_digit_ok n : 0 <= n < 16 -> is_hex_digit (Sha256.hex_digit n) = true.
Proof.
  intros H.
  assert (A : forallb (fun k => is_hex_digit (Sha256.hex_digit (Z.of_nat k)))
                (seq 0 16) = true) by reflexivity.
  rewrite forallb_forall in A. specialize (A (Z.to_nat n)).
  rewrite Z2Nat.id in A by lia. apply A, in_seq. lia.
Qed.

Lemma hex_byte_ok b :
  0 <= b < 256 -> forallb is_hex_digit (Sha256.hex_byte b) = true.
Proof.
  intros H. unfold Sha256.hex_byte. simpl.
  rewrite !hex_digit_ok; [reflexivity| |].
  - change 15 with (Z.ones 4). rewrite Z.land_ones by lia.
    apply Z.mod_pos_bound. reflexivity.
  - rewrite Z.shiftr_div_pow2 by lia. change (2 ^ 4) with 16.
    split; [apply Z.div_pos | apply Z.div_lt_upper_bound]; lia.
Qed.

Lemma hexdigest_shape msg :
  List.length (Sha256.hexdigest msg) = 64%nat /\
  forallb is_hex_digit (Sha256.hexdigest msg) = true.
Proof.
  unfold Sha256.hexdigest, Sha256.digest.
  pose proof (length_digest_words msg) as L.
  destruct (Sha256.digest_words msg)
    as [|a [|b [|c [|d [|e [|f [|g [|h [|x v]]]]]]]]]; try discriminate.
  cbn [flat_map]. rewrite !be_bytes_4. cbn [app flat_map].
  split; [reflexivity|].
  rewrite !forallb_app. cbn [forallb].
  rewrite !hex_byte_ok by apply land_255_range. reflexivity.
Qed.

(** ** What a record holds *)

Lemma str_eqb_refl s : str_eqb s s = true.
Proof. unfold str_eqb. now destruct (list_eq_dec ascii_dec s s). Qed.

Lemma dict_get_answer_hash qt fs :
  dict_get (record_of qt fs) K_ANSWER_HASH
  = Ok (PStr (sha256_hex (lower (strip (answer_field qt fs))))).
Proof. unfold record_of. now destruct (is_mc qt). Qed.




(** ** Grading *)

Lemma getitem_nth_error {A} (l : list A) i x :
  nth_error l i = Some x -> getitem l (Z.of_nat i) = Ok x.
Proof.
  intros H. assert (L : (i < List.length l)%nat)
    by (apply nth_error_Some; congruence).
  rewrite (getitem_nth l i x L). now rewrite (nth_error_nth l i x H).
Qed.

(** An empty submission is not scored even where the answer field of the
    line is empty too: the text-answer line [Q,] stores the digest of the
    empty string, the empty submission has that digest, and the loop
    leaves the score at 0. *)
Lemma empty_answer_not_scored :
  let quiz_type := s2l "Text Answer" in
  let line := s2l "Q," in
  let q := [(K_QUESTION, PStr (s2l "Q"));
            (K_ANSWER_HASH, PStr (sha256_hex []))] in
  parse_questions quiz_type line = Ok [q] /\
  answer_field quiz_type (split COMMA line) = [] /\
  same_answer [] (answer_field quiz_type (split COMMA line)) /\
  dict_get q K_ANSWER_HASH = Ok (PStr (sha256_hex (strip (lower [])))) /\
  answer_matches [q] 0 (Some []) = Ok false /\
  count_score [q] [Some []] 0 0 = Ok 0.
Proof. repeat split; vm_compute; reflexivity. Qed.

(** C3. Take any well-formed line of any text.  The record it yields
    stores the digest of its answer field (trim, lowercase, SHA-256), and
    for a submission that equals that field up to letter case and
    surrounding whitespace the digest the grader computes (lowercase, trim,
    SHA-256) is the stored one.  At the position of the record the grader
    counts the submission as correct when it is not empty; an empty
    submission is not counted. *)
Theorem grading_round_trip (quiz_type : str) (before : list str) (line : str)
  (after : list str) (rb : list dict) :
  one_line line = true ->
  well_formed quiz_type line = true ->
  parse_questions quiz_type (unlines before) = Ok rb ->
  let field := answer_field quiz_type (split COMMA line) in
  let i := List.length rb in
  exists qs q,
    parse_questions quiz_type (unlines (before ++ line :: after)) = Ok qs /\
    nth_error qs i = Some q /\
    dict_get q K_ANSWER_HASH = Ok (PStr (sha256_hex (lower (strip field)))) /\
    forall sub,
      same_answer sub field ->
      sha256_hex (strip (lower sub)) = sha256_hex (lower (strip field)) /\
      (sub <> [] -> answer_matches qs (Z.of_nat i) (Some sub) = Ok true) /\
      (sub = [] -> answer_matches qs (Z.of_nat i) (Some sub) = Ok false).
Proof.
  intros Hl W Hb field i.
  rewrite (parse_questions_around _ before line after (one_line_no_LF _ Hl)).
  rewrite Hb. rewrite (parse_questions_lines _ (unlines after)). cbn [bind].
  unfold line_records. rewrite W.
  set (q := record_of quiz_type (split COMMA line)).
  set (ra := flat_map _ _).
  assert (Hi : nth_error (rb ++ [q] ++ ra) i = Some q).
  { subst i. rewrite nth_error_app2 by lia. now rewrite Nat.sub_diag. }
  assert (G : dict_get q K_ANSWER_HASH
              = Ok (PStr (sha256_hex (lower (strip field)))))
    by apply dict_get_answer_hash.
  exists (rb ++ [q] ++ ra), q.
  split; [reflexivity|]. split; [exact Hi|]. split; [exact G|].
  intros sub Hs. unfold same_answer in Hs.
  assert (D : sha256_hex (strip (lower sub))
              = sha256_hex (lower (strip field)))
    by (now rewrite strip_lower, Hs).
  split; [exact D|]. split.
  - intros Hne. unfold answer_matches.
    destruct sub as [|c sub]; [congruence|]. cbn [truthy negb].
    rewrite (getitem_nth_error _ _ _ Hi). cbn [bind]. rewrite G. cbn [bind].
    now rewrite D, str_eqb_refl.
  - now intros ->.
Qed.

Lemma grading_round_trip_witness :
  let before := [s2l "2+2?,3,4,4"] in
  let line := s2l "Capital of France?,Paris,Rome, Paris" in
  let after := [s2l "Largest planet?,Mars,Jupiter,Jupiter"] in
  one_line line = true /\
  well_formed MULTIPLE_CHOICE line = true /\
  same_answer (s2l "  pArIs") (s2l " Paris") /\
  exists qs q,
    parse_questions MULTIPLE_CHOICE (unlines (before ++ line :: after)) = Ok qs /\
    nth_error qs 1 = Some q /\
    dict_get q K_ANSWER_HASH = Ok (PStr (sha256_hex (s2l "paris"))) /\
    sha256_hex (strip (lower (s2l "  pArIs"))) = sha256_hex (s2l "paris") /\
    answer_matches qs 1 (Some (s2l "  pArIs")) = Ok true.
Proof.
  intros before line after.
  split; [reflexivity|]. split; [reflexivity|]. split; [reflexivity|].
  destruct (grading_round_trip MULTIPLE_CHOICE before line after
              [record_of MULTIPLE_CHOICE (split COMMA (s2l "2+2?,3,4,4"))]
              eq_refl eq_refl)
    as [qs [q [Hp [Hi [G H]]]]].
  - vm_compute. reflexivity.
  - exists qs, q. split; [exact Hp|]. split; [exact Hi|]. split; [exact G|].
    destruct (H (s2l "  pArIs") eq_refl) as [D [Hok _]].
    split; [exact D|]. apply Hok. discriminate.
Defined.

(** ** The form handler *)

Lemma generate_python_code_runs title instructor quiz_type questions_text w :
  generate_python_code title instructor quiz_type questions_text w
  = (Ok (render title instructor quiz_type
           (flat_map (line_records quiz_type) (split LF questions_text))), w).
Proof.
  unfold generate_python_code, bindP, lift, retP.
  now rewrite parse_questions_lines.
Qed.

(** C6. On submission, when the title, the instructor's name or the
    questions text is empty, the page gets the error message and nothing
    else: no script is generated or shown.  When all three are non-empty
    the script is generated and shown after its header. *)
Theorem empty_field_blocks_generation
  (title instructor quiz_type questions_text : str) (w : World) :
  (title = [] \/ instructor = [] \/ questions_text = [] ->
   on_submit true title instructor quiz_type questions_text w
   = (Ok tt,
      add_widget
        (StError (s2l "Please fill in all fields to generate the code.")) w))
  /\
  (title <> [] -> instructor <> [] -> questions_text <> [] ->
   exists script,
     generate_python_code title instructor quiz_type questions_text w
     = (Ok script, w) /\
     on_submit true title instructor quiz_type questions_text w
     = (Ok tt,
        add_widget (StCode script (s2l "python"))
          (add_widget
             (StMarkdown (s2l "Paste this entire code block into a single Google Colab cell and run it."))
             (add_widget (StHeader (s2l "2. Copy Your Generated Code")) w)))).
Proof.
  split.
  - intros H. unfold on_submit, all.
    assert (E : forallb truthy [title; instructor; questions_text] = false).
    { simpl. destruct H as [-> | [-> | ->]]; simpl;
        rewrite ?andb_false_r; reflexivity. }
    now rewrite E.
  - intros Ht Hi Hq. eexists. split; [apply generate_python_code_runs|].
    unfold on_submit, all.
    assert (E : forallb truthy [title; instructor; questions_text] = true).
    { destruct title; [congruence|]. destruct instructor; [congruence|].
      destruct questions_text; [congruence|]. reflexivity. }
    rewrite E. cbn [negb]. unfold bindP.
    rewrite generate_python_code_runs. reflexivity.
Qed.

Lemma empty_field_blocks_generation_witness :
  let w := mkWorld (fun _ => s2l "u") 0 (s2l "/tmp") (s2l "01 January 2025")
             [] [] in
  page (snd (on_submit true (s2l "Quiz") [] MULTIPLE_CHOICE (s2l "2+2?,3,4,4") w))
  = [StError (s2l "Please fill in all fields to generate the code.")]
  /\
  exists script,
    page (snd (on_submit true (s2l "Quiz") (s2l "Ada") MULTIPLE_CHOICE
                 (s2l "2+2?,3,4,4") w))
    = [StHeader (s2l "2. Copy Your Generated Code");
       StMarkdown (s2l "Paste this entire code block into a single Google Colab cell and run it.");
       StCode script (s2l "python")].
Proof.
  intros w. split.
  - rewrite (proj1 (empty_field_blocks_generation (s2l "Quiz") []
                      MULTIPLE_CHOICE (s2l "2+2?,3,4,4") w)).
    + reflexivity.
    + right. left. reflexivity.
  - destruct (proj2 (empty_field_blocks_generation (s2l "Quiz") (s2l "Ada")
                       MULTIPLE_CHOICE (s2l "2+2?,3,4,4") w))
      as [script [_ H]]; try discriminate.
    exists script. rewrite H. reflexivity.
Defined.

(** ** Generation does not depend on the world *)

(** The path of a certificate comes from the UUID source and the
    temporary directory, and the date on it from the clock. *)
Lemma generate_certificate_runs name score total instructor w :
  exists ops,
    generate_certificate name score total instructor w
    = (Ok (path_join (tempdir w)
             (s2l "cert_" ++ uuid_source w (uuid_drawn w) ++ s2l ".pdf")),
       add_file
         (path_join (tempdir w)
            (s2l "cert_" ++ uuid_source w (uuid_drawn w) ++ s2l ".pdf"))
         ops (draw_uuid w))
    /\ In (DrawRightString (s2l "Issued on: " ++ today w)) ops.
Proof.
  unfold generate_certificate, bindP, uuid4, gettempdir, now_strftime, save,
    retP.
  cbn [tempdir today draw_uuid uuid_source uuid_drawn].
  eexists. split; [reflexivity|].
  do 19 right. now left.
Qed.

(** C8. [generate_python_code] returns, for given title, instructor, quiz
    type and questions text, the same script whatever the UUID source, the
    clock, the temporary directory, the saved files and the page are, and
    it leaves all of them as they were. *)
Theorem generation_deterministic
  (title instructor quiz_type questions_text : str) (w1 w2 : World) :
  exists script,
    generate_python_code title instructor quiz_type questions_text w1
    = (Ok script, w1) /\
    generate_python_code title instructor quiz_type questions_text w2
    = (Ok script, w2).
Proof.
  eexists. split; apply generate_python_code_runs.
Qed.

(** ** Binary64 division against the threshold

    The specification of the primitive floats is executable; the lemmas
    below follow its division of two normal numbers step by step and
    compare the rounded quotient with the threshold. *)

Lemma digits2_pos_size p : digits2_pos p = Pos.size p.
Proof. induction p; simpl; congruence. Qed.

Lemma Zdigits2_log2 m : 0 < m -> Zdigits2 m = Z.log2 m + 1.
Proof.
  destruct m as [|p|p]; try lia. intros _. simpl. rewrite digits2_pos_size.
  destruct p; simpl; lia.
Qed.

Lemma Zdigits2_bounds m d : 0 < d -> 2 ^ (d - 1) <= m < 2 ^ d -> Zdigits2 m = d.
Proof.
  intros Hd H. assert (0 < m) by (pose proof (Z.pow_pos_nonneg 2 (d - 1)); lia).
  rewrite Zdigits2_log2 by assumption.
  rewrite (Z.log2_unique m (d - 1)); try lia.
  replace (Z.succ (d - 1)) with d by lia. lia.
Qed.

Lemma Zdigits2_spec m : 0 < m -> 2 ^ (Zdigits2 m - 1) <= m < 2 ^ Zdigits2 m.
Proof.
  intros H. rewrite Zdigits2_log2 by assumption.
  replace (Z.log2 m + 1 - 1) with (Z.log2 m) by lia.
  pose proof (Z.log2_spec m H). replace (Z.log2 m + 1) with (Z.succ (Z.log2 m)) by lia. lia.
Qed.

Lemma loc_of_shr_record_of_loc m l :
  loc_of_shr_record (shr_record_of_loc m l) = l.
Proof. destruct l as [|[]]; reflexivity. Qed.

Lemma shr_m_of_loc m l : shr_m (shr_record_of_loc m l) = m.
Proof. destruct l as [|[]]; reflexivity. Qed.

(* no shift when the mantissa has 53 digits *)
Lemma shr_fexp_53 m e l :
  2 ^ 52 <= m < 2 ^ 53 -> -1074 <= e ->
  shr_fexp 53 1024 m e l = (shr_record_of_loc m l, e).
Proof.
  intros Hm He. unfold shr_fexp. rewrite (Zdigits2_bounds m 53) by lia.
  unfold fexp, SpecFloat.emin.
  replace (Z.max (53 + e - 53) (3 - 1024 - 53) - e) with 0 by lia.
  reflexivity.
Qed.

Lemma shr_1_pos m r s : 0 < m ->
  shr_1 {| shr_m := m; shr_r := r; shr_s := s |}
  = {| shr_m := m / 2; shr_r := Z.odd m; shr_s := r || s |}.
Proof.
  intros H. destruct m as [|p|p]; try lia.
  destruct p; simpl.
  - f_equal. rewrite Pos2Z.inj_xI. apply (Z.div_unique _ _ _ 1); lia.
  - f_equal. rewrite Pos2Z.inj_xO. apply (Z.div_unique _ _ _ 0); lia.
  - reflexivity.
Qed.

Lemma shr_fexp_54 m e l :
  2 ^ 53 <= m < 2 ^ 54 -> -1074 <= e ->
  shr_fexp 53 1024 m e l
  = ({| shr_m := m / 2; shr_r := Z.odd m;
        shr_s := match l with loc_Exact => false | _ => true end |}, e + 1).
Proof.
  intros Hm He. unfold shr_fexp. rewrite (Zdigits2_bounds m 54) by lia.
  unfold fexp, SpecFloat.emin.
  replace (Z.max (54 + e - 53) (3 - 1024 - 53) - e) with 1 by lia.
  unfold shr. cbn [iter_pos]. f_equal.
  destruct l as [|[]]; cbn [shr_record_of_loc]; rewrite shr_1_pos by lia; reflexivity.
Qed.

Lemma round_nearest_even_range m l :
  m <= round_nearest_even m l <= m + 1.
Proof. destruct l as [|[]]; simpl; try lia. destruct (Z.even m); lia. Qed.

Lemma finish_53 m e :
  2 ^ 52 <= m <= 2 ^ 53 -> -1074 <= e <= 969 ->
  (let '(mrs, e') := shr_fexp 53 1024 m e loc_Exact in
   match shr_m mrs with
   | Z0 => S754_zero false
   | Zpos p => if e' <=? 1024 - 53 then S754_finite false p e' else S754_infinity false
   | Zneg _ => S754_nan
   end)
  = if m <? 2 ^ 53 then S754_finite false (Z.to_pos m) e
    else S754_finite false (Z.to_pos (2 ^ 52)) (e + 1).
Proof.
  intros Hm He. destruct (Z.ltb_spec m (2 ^ 53)) as [L|L].
  - rewrite shr_fexp_53 by lia. cbn [shr_record_of_loc shr_m].
    destruct m as [|p|p]; try lia.
    replace (e <=? 1024 - 53) with true by (symmetry; apply Z.leb_le; lia).
    reflexivity.
  - assert (m = 2 ^ 53) as -> by lia.
    rewrite shr_fexp_54 by lia. cbn [shr_m].
    change (2 ^ 53 / 2) with (2 ^ 52). change (2 ^ 52) with (Zpos (Z.to_pos (2 ^ 52))) at 1.
    cbv iota.
    replace (e + 1 <=? 1024 - 53) with true by (symmetry; apply Z.leb_le; lia).
    reflexivity.
Qed.

Lemma binary_round_aux_53 q e l :
  2 ^ 52 <= q < 2 ^ 54 -> -1074 <= e <= 960 ->
  binary_round_aux 53 1024 false q e l
  = S754_finite false (Z.to_pos (fst (round53 q e l))) (snd (round53 q e l)).
Proof.
  intros Hq He. unfold binary_round_aux, round53.
  destruct (Z.ltb_spec q (2 ^ 53)) as [L|L].
  - rewrite shr_fexp_53 by lia.
    rewrite shr_m_of_loc, loc_of_shr_record_of_loc.
    pose proof (round_nearest_even_range q l) as R.
    rewrite finish_53 by lia.
    now destruct (round_nearest_even q l <? 2 ^ 53).
  - rewrite shr_fexp_54 by lia. cbn [shr_m].
    set (l0 := loc_of_shr_record _).
    assert (Hh : 2 ^ 52 <= q / 2 < 2 ^ 53).
    { split; [apply Z.div_le_lower_bound | apply Z.div_lt_upper_bound]; lia. }
    pose proof (round_nearest_even_range (q / 2) l0) as R.
    rewrite finish_53 by lia.
    now destruct (round_nearest_even (q / 2) l0 <? 2 ^ 53).
Qed.

Lemma new_location_spec b r :
  0 < b -> 0 <= r < b ->
  new_location b r = if r =? 0 then loc_Exact else loc_Inexact (2 * r ?= b).
Proof.
  intros Hb Hr. unfold new_location, new_location_even, new_location_odd.
  destruct (Z.even b) eqn:E; [reflexivity|].
  destruct (r =? 0); [reflexivity|]. f_equal.
  assert (O : Z.odd b = true) by (rewrite <- Z.negb_even, E; reflexivity).
  apply Z.odd_spec in O as [c Hc].
  destruct (Z.compare_spec (2 * r + 1) b), (Z.compare_spec (2 * r) b);
    try reflexivity; lia.
Qed.

Lemma SFdiv_normal a b e1 e2 :
  2 ^ 52 <= Zpos a < 2 ^ 53 -> 2 ^ 52 <= Zpos b < 2 ^ 53 ->
  -52 <= e1 <= 0 -> -52 <= e2 <= 0 ->
  SFdiv 53 1024 (S754_finite false a e1) (S754_finite false b e2)
  = binary_round_aux 53 1024 false (Zpos a * 2 ^ 53 / Zpos b) (e1 - e2 - 53)
      (new_location (Zpos b) ((Zpos a * 2 ^ 53) mod Zpos b)).
Proof.
  intros Ha Hb H1 H2. unfold SFdiv, SFdiv_core_binary.
  rewrite (Zdigits2_bounds (Zpos a) 53), (Zdigits2_bounds (Zpos b) 53) by lia.
  unfold fexp, SpecFloat.emin.
  replace (Z.min (Z.max (53 + e1 - (53 + e2) - 53) (3 - 1024 - 53)) (e1 - e2))
    with (e1 - e2 - 53) by lia.
  replace (e1 - e2 - (e1 - e2 - 53)) with 53 by lia.
  rewrite Z.shiftl_mul_pow2 by lia.
  unfold Z.div, Z.modulo.
  destruct (Z.div_eucl (Zpos a * 2 ^ 53) (Zpos b)) as [q r]. reflexivity.
Qed.

Lemma SFleb_finite m1 e1 m2 e2 :
  SFleb (S754_finite false m1 e1) (S754_finite false m2 e2)
  = (e1 <? e2) || ((e1 =? e2) && (Zpos m1 <=? Zpos m2)).
Proof.
  unfold SFleb, SFcompare.
  destruct (Z.compare_spec e1 e2) as [->|L|L].
  - rewrite Z.ltb_irrefl, Z.eqb_refl. cbn [orb andb].
    unfold Z.leb. cbn [Z.compare].
    change (Pos.compare_cont Eq m1 m2) with (Pos.compare m1 m2).
    now destruct (m1 ?= m2)%positive.
  - apply Z.ltb_lt in L. now rewrite L.
  - replace (e1 <? e2) with false by (symmetry; apply Z.ltb_ge; lia).
    replace (e1 =? e2) with false by (symmetry; apply Z.eqb_neq; lia).
    reflexivity.
Qed.

Lemma iter_xO p n : Zpos (Pos.iter xO p n) = Zpos p * 2 ^ Zpos n.
Proof.
  induction n as [|n IH] using Pos.peano_ind.
  - simpl. lia.
  - rewrite Pos.iter_succ, Pos2Z.inj_succ, Z.pow_succ_r by lia.
    rewrite Pos2Z.inj_xO, IH. lia.
Qed.

Lemma binary_normalize_int s :
  0 < s < 2 ^ 53 ->
  binary_normalize 53 1024 s 0 false
  = S754_finite false (Z.to_pos (s * 2 ^ (53 - Zdigits2 s))) (Zdigits2 s - 53).
Proof.
  intros Hs. pose proof (Zdigits2_spec s ltac:(lia)) as D.
  assert (Hd : 1 <= Zdigits2 s <= 53).
  { rewrite Zdigits2_log2 by lia. pose proof (Z.log2_nonneg s).
    assert (Z.log2 s < 53) by (apply Z.log2_lt_pow2; lia). lia. }
  destruct s as [|p|p]; try lia.
  unfold binary_normalize, binary_round, shl_align.
  change (Zpos (digits2_pos p)) with (Zdigits2 (Zpos p)).
  set (d := Zdigits2 (Zpos p)) in *.
  unfold fexp, SpecFloat.emin.
  replace (Z.max (d + 0 - 53) (3 - 1024 - 53) - 0) with (d - 53) by lia.
  assert (M : 2 ^ 52 <= Zpos p * 2 ^ (53 - d) < 2 ^ 53).
  { assert (X : 0 < 2 ^ (53 - d)) by (apply Z.pow_pos_nonneg; lia).
    assert (E52 : 2 ^ 52 = 2 ^ (d - 1) * 2 ^ (53 - d))
      by (rewrite <- Z.pow_add_r by lia; f_equal; lia).
    assert (E53 : 2 ^ 53 = 2 ^ d * 2 ^ (53 - d))
      by (rewrite <- Z.pow_add_r by lia; f_equal; lia).
    rewrite E52, E53. split.
    - apply Z.mul_le_mono_nonneg_r; lia.
    - apply Z.mul_lt_mono_pos_r; lia. }
  destruct (d - 53) as [|x|x] eqn:E; try lia.
  - replace (53 - d) with 0 in * by lia. rewrite Z.mul_1_r in *.
    rewrite binary_round_aux_53 by lia.
    unfold round53. replace (Zpos p <? 2 ^ 53) with true by (symmetry; apply Z.ltb_lt; lia).
    cbn [round_nearest_even].
    replace (Zpos p <? 2 ^ 53) with true by (symmetry; apply Z.ltb_lt; lia).
    reflexivity.
  - replace (53 - d) with (Zpos x) in * by lia.
    rewrite <- iter_xO in *.
    replace (Z.max (d + 0 - 53) (3 - 1024 - 53)) with (Z.neg x) by lia.
    rewrite binary_round_aux_53 by lia.
    unfold round53.
    replace (Zpos (Pos.iter xO p x) <? 2 ^ 53) with true by (symmetry; apply Z.ltb_lt; lia).
    cbn [round_nearest_even].
    replace (Zpos (Pos.iter xO p x) <? 2 ^ 53) with true by (symmetry; apply Z.ltb_lt; lia).
    simpl. reflexivity.
Qed.

Ltac bool_cases :=
  repeat match goal with
  | |- context [Z.ltb ?x ?y] => destruct (Z.ltb_spec x y)
  | |- context [Z.leb ?x ?y] => destruct (Z.leb_spec x y)
  | |- context [Z.eqb ?x ?y] => destruct (Z.eqb_spec x y)
  end; cbn [orb andb]; try reflexivity; exfalso.

Lemma round53_vs_threshold A B q r e1 e2 :
  2 ^ 52 <= A < 2 ^ 53 -> 2 ^ 52 <= B < 2 ^ 53 ->
  -52 <= e1 <= 0 -> -52 <= e2 <= 0 -> e1 <= e2 ->
  A * 2 ^ 53 = B * q + r -> 0 <= r < B ->
  let R := round53 q (e1 - e2 - 53)
             (if r =? 0 then loc_Exact else loc_Inexact (2 * r ?= B)) in
  0 < fst R /\
  (-53 <? snd R) || ((-53 =? snd R) && (7205759403792794 <=? fst R))
  = if e2 - e1 =? 0 then 4 * B <=? 5 * A
    else if e2 - e1 =? 1 then 8 * B <=? 5 * A else false.
Proof.
  intros HA HB H1 H2 H12 Hq Hr R. subst R. unfold round53.
  assert (Q : 2 ^ 52 <= q < 2 ^ 54) by nia.
  destruct (Z.ltb_spec q (2 ^ 53)) as [L|L].
  - destruct (Z.eqb_spec r 0) as [Z|Z];
      [|destruct (Z.compare_spec (2 * r) B) as [C|C|C]];
      cbn [round_nearest_even].
    + destruct (Z.ltb_spec q (2 ^ 53)); [|lia]. cbn [fst snd].
      split; [lia|]. bool_cases; nia.
    + destruct (Z.even q) eqn:Ev.
      * destruct (Z.ltb_spec q (2 ^ 53)); [|lia]. cbn [fst snd].
        split; [lia|]. apply Z.even_spec in Ev as [c Ec].
        bool_cases; nia.
      * assert (Od : Z.odd q = true) by (rewrite <- Z.negb_even, Ev; reflexivity).
        apply Z.odd_spec in Od as [c Ec].
        destruct (Z.ltb_spec (q + 1) (2 ^ 53)); cbn [fst snd];
          (split; [lia|]); bool_cases; nia.
    + destruct (Z.ltb_spec q (2 ^ 53)); [|lia]. cbn [fst snd].
      split; [lia|]. bool_cases; nia.
    + destruct (Z.ltb_spec (q + 1) (2 ^ 53)); cbn [fst snd];
        (split; [lia|]); bool_cases; nia.
  - assert (Hh : q = 2 * (q / 2) + (if Z.odd q then 1 else 0))
      by (rewrite <- Zmod_odd; apply Z.div_mod; lia).
    set (h := q / 2) in *.
    assert (S : (match (if r =? 0 then loc_Exact else loc_Inexact (2 * r ?= B))
                 with loc_Exact => false | _ => true end) = negb (r =? 0))
      by (destruct (r =? 0); reflexivity).
    rewrite S. clear S.
    destruct (Z.odd q); destruct (Z.eqb_spec r 0) as [Z|Z];
      cbn [negb loc_of_shr_record round_nearest_even].
    + destruct (Z.even h) eqn:Ev.
      * apply Z.even_spec in Ev as [c Ec].
        destruct (Z.ltb_spec h (2 ^ 53)); [|lia]. cbn [fst snd].
        split; [lia|]. bool_cases; nia.
      * destruct (Z.ltb_spec (h + 1) (2 ^ 53)); cbn [fst snd];
          (split; [lia|]); bool_cases; nia.
    + destruct (Z.ltb_spec (h + 1) (2 ^ 53)); cbn [fst snd];
        (split; [lia|]); bool_cases; nia.
    + destruct (Z.ltb_spec h (2 ^ 53)); [|lia]. cbn [fst snd].
      split; [lia|]. bool_cases; nia.
    + destruct (Z.ltb_spec h (2 ^ 53)); [|lia]. cbn [fst snd].
      split; [lia|]. bool_cases; nia.
Qed.

Lemma SFleb_div a b e1 e2 :
  2 ^ 52 <= Zpos a < 2 ^ 53 -> 2 ^ 52 <= Zpos b < 2 ^ 53 ->
  -52 <= e1 <= 0 -> -52 <= e2 <= 0 -> e1 <= e2 ->
  SFleb threshold_sf (SFdiv 53 1024 (S754_finite false a e1) (S754_finite false b e2))
  = if e2 - e1 =? 0 then 4 * Zpos b <=? 5 * Zpos a
    else if e2 - e1 =? 1 then 8 * Zpos b <=? 5 * Zpos a else false.
Proof.
  intros Ha Hb H1 H2 H12.
  rewrite SFdiv_normal by assumption.
  pose proof (Z.div_mod (Zpos a * 2 ^ 53) (Zpos b) ltac:(lia)) as Hq.
  pose proof (Z.mod_pos_bound (Zpos a * 2 ^ 53) (Zpos b) ltac:(lia)) as Hr.
  set (q := Zpos a * 2 ^ 53 / Zpos b) in *.
  set (r := (Zpos a * 2 ^ 53) mod Zpos b) in *.
  assert (Q : 2 ^ 52 <= q < 2 ^ 54) by nia.
  rewrite binary_round_aux_53 by lia.
  rewrite new_location_spec by lia.
  destruct (round53_vs_threshold (Zpos a) (Zpos b) q r e1 e2 Ha Hb H1 H2 H12 Hq Hr)
    as [Pos E].
  unfold threshold_sf. rewrite SFleb_finite, Z2Pos.id by exact Pos. exact E.
Qed.

Lemma Zdigits2_le s t : 0 < s <= t -> Zdigits2 s <= Zdigits2 t.
Proof.
  intros H. rewrite !Zdigits2_log2 by lia.
  pose proof (Z.log2_le_mono s t). lia.
Qed.

(* the binary64 quotient of two integers below 2^53 reaches 0.8 exactly
   when the rational quotient does *)
Lemma SFleb_div_int s t :
  0 <= s <= t -> 0 < t < 2 ^ 53 ->
  SFleb threshold_sf (SFdiv 53 1024 (binary_normalize 53 1024 s 0 false)
                            (binary_normalize 53 1024 t 0 false))
  = (4 * t <=? 5 * s).
Proof.
  intros Hs Ht.
  destruct (Z.eq_dec s 0) as [->|Hn].
  - rewrite (binary_normalize_int t) by lia.
    transitivity false; [reflexivity|]. symmetry. apply Z.leb_gt. lia.
  - rewrite (binary_normalize_int s), (binary_normalize_int t) by lia.
    pose proof (Zdigits2_spec s ltac:(lia)) as Ds.
    pose proof (Zdigits2_spec t ltac:(lia)) as Dt.
    pose proof (Zdigits2_le s t ltac:(lia)) as Dle.
    set (ds := Zdigits2 s) in *. set (dt := Zdigits2 t) in *.
    assert (Hds : 1 <= ds <= 53).
    { subst ds. rewrite Zdigits2_log2 by lia. pose proof (Z.log2_nonneg s).
      assert (Z.log2 s < 53) by (apply Z.log2_lt_pow2; lia). lia. }
    assert (Hdt : 1 <= dt <= 53).
    { subst dt. rewrite Zdigits2_log2 by lia. pose proof (Z.log2_nonneg t).
      assert (Z.log2 t < 53) by (apply Z.log2_lt_pow2; lia). lia. }
    assert (Xs : 0 < 2 ^ (53 - ds)) by (apply Z.pow_pos_nonneg; lia).
    assert (Xt : 0 < 2 ^ (53 - dt)) by (apply Z.pow_pos_nonneg; lia).
    assert (Es52 : 2 ^ 52 = 2 ^ (ds - 1) * 2 ^ (53 - ds))
      by (rewrite <- Z.pow_add_r by lia; f_equal; lia).
    assert (Es53 : 2 ^ 53 = 2 ^ ds * 2 ^ (53 - ds))
      by (rewrite <- Z.pow_add_r by lia; f_equal; lia).
    assert (Et52 : 2 ^ 52 = 2 ^ (dt - 1) * 2 ^ (53 - dt))
      by (rewrite <- Z.pow_add_r by lia; f_equal; lia).
    assert (Et53 : 2 ^ 53 = 2 ^ dt * 2 ^ (53 - dt))
      by (rewrite <- Z.pow_add_r by lia; f_equal; lia).
    assert (Ms : 2 ^ 52 <= s * 2 ^ (53 - ds) < 2 ^ 53).
    { rewrite Es52, Es53. split;
        [apply Z.mul_le_mono_nonneg_r | apply Z.mul_lt_mono_pos_r]; lia. }
    assert (Mt : 2 ^ 52 <= t * 2 ^ (53 - dt) < 2 ^ 53).
    { rewrite Et52, Et53. split;
        [apply Z.mul_le_mono_nonneg_r | apply Z.mul_lt_mono_pos_r]; lia. }
    rewrite SFleb_div; rewrite ?Z2Pos.id; try lia.
    replace (dt - 53 - (ds - 53)) with (dt - ds) by lia.
    destruct (Z.eqb_spec (dt - ds) 0) as [E0|N0];
      [|destruct (Z.eqb_spec (dt - ds) 1) as [E1|N1]].
    + replace ds with dt in * by lia.
      destruct (Z.leb_spec (4 * (t * 2 ^ (53 - dt))) (5 * (s * 2 ^ (53 - dt))));
        destruct (Z.leb_spec (4 * t) (5 * s)); try reflexivity; nia.
    + assert (P : 2 ^ (53 - ds) = 2 * 2 ^ (53 - dt)).
      { replace (53 - ds) with (1 + (53 - dt)) by lia.
        rewrite Z.pow_add_r by lia. reflexivity. }
      rewrite P in *.
      destruct (Z.leb_spec (8 * (t * 2 ^ (53 - dt))) (5 * (s * (2 * 2 ^ (53 - dt)))));
        destruct (Z.leb_spec (4 * t) (5 * s)); try reflexivity; nia.
    + symmetry. apply Z.leb_gt.
      assert (P : 2 ^ (dt - 1) = 2 ^ ds * 2 ^ (dt - 1 - ds))
        by (rewrite <- Z.pow_add_r by lia; f_equal; lia).
      assert (P2 : 2 ^ 1 <= 2 ^ (dt - 1 - ds)) by (apply Z.pow_le_mono_r; lia).
      change (2 ^ 1) with 2 in P2.
      assert (0 < 2 ^ ds) by (apply Z.pow_pos_nonneg; lia). nia.
Qed.

Lemma leb_threshold_div s t :
  0 <= s <= t -> 0 < t < 2 ^ 53 ->
  PrimFloat.leb passing_threshold
    (PrimFloat.div (float_of_int s) (float_of_int t))
  = (4 * t <=? 5 * s).
Proof.
  intros Hs Ht. rewrite leb_spec, div_spec. unfold float_of_int.
  rewrite !of_uint63_spec, !Uint63.of_Z_spec.
  assert (W : 2 ^ 53 < wB) by reflexivity.
  rewrite !Z.mod_small by lia.
  change (Prim2SF passing_threshold) with threshold_sf.
  apply SFleb_div_int; assumption.
Qed.

(** ** The certificate threshold *)

(** Below 2^53 questions, the condition of line 159 holds exactly when
    score / total is at least 4/5. *)
Lemma meets_threshold_spec (score total : Z) :
  0 < total < 2 ^ 53 -> 0 <= score <= total ->
  meets_threshold score total = Ok (4 * total <=? 5 * score).
Proof.
  intros Ht Hs. unfold meets_threshold, truediv.
  replace (0 <? total) with true by (symmetry; apply Z.ltb_lt; lia).
  replace (total =? 0) with false by (symmetry; apply Z.eqb_neq; lia).
  cbn [bind]. f_equal. apply leb_threshold_div; lia.
Qed.

Lemma eval_quiz_runs instructor questions name answers score pass w :
  count_score questions answers 0 0 = Ok score ->
  meets_threshold score (len questions) = Ok pass ->
  exists message cert_path w',
    eval_quiz instructor questions name answers w
    = (Ok (message, cert_path), w') /\
    (cert_path <> None <-> pass = true).
Proof.
  intros Hc Hm. unfold eval_quiz, bindP, lift. rewrite Hc, Hm.
  destruct pass.
  - destruct (generate_certificate_runs
                (if negb (truthy (strip name)) then s2l "Anonymous" else name)
                score (len questions) instructor w) as [ops [E _]].
    rewrite E. unfold retP. do 3 eexists. split; [reflexivity|].
    split; [reflexivity | discriminate].
  - unfold retP. do 3 eexists. split; [reflexivity|].
    split; [congruence | discriminate].
Qed.

(** C4. When grading ends with [score] right answers out of a positive
    number [total] of questions, [eval_quiz] returns a certificate path
    exactly when score / total is at least 4/5.  A quiz has fewer than
    2^53 questions, so that both numbers are binary64 numbers.  With 4 of
    5 and with 4 of 4 the condition holds, with 3 of 4 it does not. *)
Theorem certificate_threshold (instructor : str) (questions : list dict)
  (name : str) (answers : list (option str)) (score : Z) (w : World) :
  count_score questions answers 0 0 = Ok score ->
  0 < len questions < 2 ^ 53 ->
  0 <= score <= len questions ->
  (exists message cert_path w',
      eval_quiz instructor questions name answers w
      = (Ok (message, cert_path), w') /\
      (cert_path <> None
       <-> (4 # 5 <= score # Z.to_pos (len questions))%Q))
  /\ meets_threshold 4 5 = Ok true
  /\ meets_threshold 4 4 = Ok true
  /\ meets_threshold 3 4 = Ok false.
Proof.
  intros Hc Ht Hs. split; [|repeat split; vm_compute; reflexivity].
  destruct (eval_quiz_runs instructor questions name answers score _ w Hc
              (meets_threshold_spec score (len questions) Ht Hs))
    as [message [cert_path [w' [E P]]]].
  exists message, cert_path, w'. split; [exact E|].
  rewrite P, Z.leb_le. unfold Qle. cbn [Qnum Qden].
  rewrite Z2Pos.id by lia. lia.
Qed.

Lemma certificate_threshold_witness :
  let w := mkWorld (fun _ => s2l "7d44") 0 (s2l "/tmp") (s2l "01 January 2025")
             [] [] in
  let questions :=
    [mc_record (s2l "2+2?") [s2l "3"; s2l "4"] (sha256_hex (s2l "4"));
     mc_record (s2l "Capital of France?") [s2l "Paris"; s2l "Rome"]
       (sha256_hex (s2l "paris"));
     mc_record (s2l "Red planet?") [s2l "Mars"; s2l "Venus"]
       (sha256_hex (s2l "mars"));
     mc_record (s2l "Largest planet?") [s2l "Mars"; s2l "Jupiter"]
       (sha256_hex (s2l "jupiter"))] in
  let answers := [Some (s2l "4"); Some (s2l " paris "); Some (s2l "Mars");
                  Some (s2l "JUPITER")] in
  parse_questions MULTIPLE_CHOICE (s2l "2+2?,3,4,4
Capital of France?,Paris,Rome,Paris
Red planet?,Mars,Venus,Mars
Largest planet?,Mars,Jupiter,Jupiter") = Ok questions /\
  count_score questions answers 0 0 = Ok 4 /\
  count_score questions (None :: tl answers) 0 0 = Ok 3 /\
  (exists message cert_path w',
      eval_quiz (s2l "Ada") questions (s2l "Bob") answers w
      = (Ok (message, cert_path), w') /\
      (cert_path <> None <-> (4 # 5 <= 4 # 4)%Q)) /\
  (exists message cert_path w',
      eval_quiz (s2l "Ada") questions (s2l "Bob") (None :: tl answers) w
      = (Ok (message, cert_path), w') /\
      (cert_path <> None <-> (4 # 5 <= 3 # 4)%Q)).
Proof.
  intros w questions answers.
  assert (H4 : count_score questions answers 0 0 = Ok 4)
    by (vm_compute; reflexivity).
  assert (H3 : count_score questions (None :: tl answers) 0 0 = Ok 3)
    by (vm_compute; reflexivity).
  split; [vm_compute; reflexivity|].
  split; [exact H4|]. split; [exact H3|]. split.
  - refine (proj1 (certificate_threshold (s2l "Ada") questions (s2l "Bob")
                     answers 4 w H4 _ _));
      [split; reflexivity | split; discriminate].
  - refine (proj1 (certificate_threshold (s2l "Ada") questions (s2l "Bob")
                     (None :: tl answers) 3 w H3 _ _));
      [split; reflexivity | split; discriminate].
Defined.

(** C10. With an empty question list, and so with no answers, the
    division of line 159 is not evaluated (it would raise), no certificate
    is made, the world is left as it was, and the message is returned. *)
Theorem empty_quiz_is_safe (instructor : str) (questions : list dict)
  (name : str) (answers : list (option str)) (w : World) :
  len questions = 0 ->
  List.length answers = List.length questions ->
  (forall score, truediv score (len questions) = Raise ZeroDivisionError) /\
  (forall score, meets_threshold score (len questions) = Ok false) /\
  eval_quiz instructor questions name answers w
  = (Ok (s2l "Hi "
         ++ (if negb (truthy (strip name)) then s2l "Anonymous" else name)
         ++ s2l ", your score is: 0 / 0."
         ++ s2l " A score of 80% is required to receive a certificate.",
         None), w).
Proof.
  intros Hq Ha. destruct questions; [|discriminate Hq].
  destruct answers; [|discriminate Ha].
  split; [reflexivity|]. split; [reflexivity|].
  unfold eval_quiz, bindP, lift, retP. cbn [count_score].
  change (meets_threshold 0 (len [])) with (@Ok bool false). cbv iota.
  change (len (@nil dict)) with 0.
  change (str_of_int 0) with (s2l "0").
  rewrite <- !app_assoc. reflexivity.
Qed.

Lemma empty_quiz_is_safe_witness :
  let w := mkWorld (fun _ => s2l "7d44") 0 (s2l "/tmp") (s2l "01 January 2025")
             [] [] in
  eval_quiz (s2l "Ada") [] (s2l "  ") [] w
  = (Ok (s2l "Hi Anonymous, your score is: 0 / 0. A score of 80% is required to receive a certificate.",
         None), w).
Proof.
  intros w.
  exact (proj2 (proj2 (empty_quiz_is_safe (s2l "Ada") [] (s2l "  ") [] w
                         eq_refl eq_refl))).
Defined.

(** * Further properties *)

(** ** More on the parser *)

(** X1. Parsing a text made of two texts on consecutive lines gives the
    records of the first followed by the records of the second. *)
Theorem parse_questions_concat (quiz_type a b : str) :
  exists ra rb,
    parse_questions quiz_type a = Ok ra /\
    parse_questions quiz_type b = Ok rb /\
    parse_questions quiz_type (a ++ LF :: b) = Ok (ra ++ rb).
Proof.
  rewrite !parse_questions_lines. eexists; eexists.
  split; [reflexivity|]. split; [reflexivity|].
  now rewrite split_app_sep, flat_map_app.
Qed.

(** X2. The number of records is the number of lines of the text that have
    enough comma-separated fields for the quiz type. *)
Theorem record_count (quiz_type text : str) :
  exists qs,
    parse_questions quiz_type text = Ok qs /\
    List.length qs
    = List.length (filter (well_formed quiz_type) (split LF text)).
Proof.
  rewrite parse_questions_lines. eexists. split; [reflexivity|].
  apply length_line_records.
Qed.

Lemma strip_app_blank_l pre s : blank pre = true -> strip (pre ++ s) = strip s.
Proof. intros H. unfold strip. now rewrite lstrip_app, H. Qed.

Lemma lines_padded qt pre s suf :
  blank pre = true -> blank suf = true ->
  flat_map (line_records qt) (split LF (pre ++ s ++ suf))
  = flat_map (line_records qt) (split LF s).
Proof.
  intros Hp Hs.
  rewrite <- (lines_strip (line_records qt) (line_records_nil qt)
                (line_records_cons_space qt) (line_records_app_blank qt)
                (pre ++ s ++ suf)).
  rewrite strip_app_blank_l, strip_app_blank by assumption.
  apply (lines_strip (line_records qt) (line_records_nil qt)
           (line_records_cons_space qt) (line_records_app_blank qt)).
Qed.

(** X3. Whitespace around the lines does not matter: a text whose lines
    are those of another text with whitespace put in front of them and
    behind them (a carriage return, as in a text with Windows line ends, or
    indentation) is parsed to the same questions. *)
Theorem padding_ignored (quiz_type : str) (lines lines' : list str) :
  Forall2 (fun l l' => exists pre suf,
             blank pre = true /\ blank suf = true /\ l' = pre ++ l ++ suf)
          lines lines' ->
  parse_questions quiz_type (unlines lines')
  = parse_questions quiz_type (unlines lines).
Proof.
  intros F. rewrite !parse_questions_lines. f_equal.
  induction F as [|l l' lines lines' [pre [suf [Hp [Hs ->]]]] F IH];
    [reflexivity|].
  rewrite !(lines_unlines_cons _ (line_records_nil quiz_type)), IH.
  now rewrite lines_padded.
Qed.

Lemma padding_ignored_witness :
  let lines := [s2l "2+2?,3,4,4"; s2l "Capital of France?,Paris,Rome,Paris"] in
  let lines' := [s2l "2+2?,3,4,4" ++ [chr 13];
                 s2l "  Capital of France?,Paris,Rome,Paris"] in
  parse_questions MULTIPLE_CHOICE (unlines lines')
  = parse_questions MULTIPLE_CHOICE (unlines lines).
Proof.
  apply (padding_ignored MULTIPLE_CHOICE
           [s2l "2+2?,3,4,4"; s2l "Capital of France?,Paris,Rome,Paris"]
           [s2l "2+2?,3,4,4" ++ [chr 13];
            s2l "  Capital of France?,Paris,Rome,Paris"]).
  constructor; [exists [], [chr 13]; repeat split|].
  constructor; [exists (s2l "  "), []; repeat split|].
  constructor.
Defined.

Lemma no_comma_split a :
  existsb (fun c => Ascii.eqb c COMMA) a = false -> split COMMA a = [a].
Proof. apply split_no_sep. Qed.

Lemma record_of_answer_only qt h t a1 a2 :
  same_answer a1 a2 ->
  record_of qt ((h :: t) ++ [a1]) = record_of qt ((h :: t) ++ [a2]).
Proof.
  intros S. unfold same_answer in S. unfold record_of, answer_field.
  simpl hd. simpl tl. rewrite !removelast_last, !last_last.
  destruct (is_mc qt).
  - now rewrite S.
  - destruct t as [|x t]; simpl; [now rewrite S | reflexivity].
Qed.

(** X4. The record of a line keeps nothing of the letter case of the
    answer or of the whitespace around it: two lines that differ only in
    their last field, by letter case and surrounding whitespace, are
    parsed to the same result. *)
Theorem answer_case_not_kept (quiz_type body a1 a2 : str) :
  one_line body = true -> one_line a1 = true -> one_line a2 = true ->
  existsb (fun c => Ascii.eqb c COMMA) a1 = false ->
  existsb (fun c => Ascii.eqb c COMMA) a2 = false ->
  same_answer a1 a2 ->
  parse_questions quiz_type (body ++ COMMA :: a1)
  = parse_questions quiz_type (body ++ COMMA :: a2).
Proof.
  intros Hb H1 H2 C1 C2 S.
  assert (L : forall a, one_line a = true ->
                        one_line (body ++ COMMA :: a) = true).
  { intros a Ha. unfold one_line in *. rewrite existsb_app. simpl.
    apply negb_true_iff in Hb, Ha. now rewrite Hb, Ha. }
  rewrite !parse_questions_one_line by auto. f_equal.
  unfold line_records, well_formed.
  rewrite !split_app_sep, (no_comma_split a1 C1), (no_comma_split a2 C2).
  rewrite !length_app. simpl List.length.
  destruct (min_fields quiz_type <=? List.length (split COMMA body) + 1)%nat;
    [|reflexivity].
  f_equal. destruct (split_nonempty COMMA body) as [h [t E]]. rewrite E.
  now apply record_of_answer_only.
Qed.

Lemma answer_case_not_kept_witness :
  one_line (s2l "Capital of France?,Paris,Rome") = true /\
  same_answer (s2l "Paris") (s2l "  pARIS ") /\
  parse_questions MULTIPLE_CHOICE (s2l "Capital of France?,Paris,Rome,Paris")
  = parse_questions MULTIPLE_CHOICE (s2l "Capital of France?,Paris,Rome,  pARIS ").
Proof.
  split; [reflexivity|]. split; [reflexivity|].
  apply (answer_case_not_kept MULTIPLE_CHOICE
           (s2l "Capital of France?,Paris,Rome") (s2l "Paris")
           (s2l "  pARIS ")); reflexivity.
Defined.

Lemma length_removelast_tl {A} (l : list A) :
  List.length (removelast (tl l)) = (List.length l - 2)%nat.
Proof.
  destruct l as [|x l]; [reflexivity|]. simpl tl.
  rewrite removelast_firstn_len, length_firstn. simpl. lia.
Qed.

(** X5. Every multiple-choice record is the record of a line of the
    text: its question is the first field of that line, trimmed, its
    options are the fields between the first and the last, trimmed and in
    order, and its answer_hash is the digest of the last field, trimmed
    and lowercased.  The options list has at least one entry: as many as
    the line has fields, less two. *)
Theorem multiple_choice_has_options (text : str) (qs : list dict) (q : dict) :
  parse_questions MULTIPLE_CHOICE text = Ok qs ->
  In q qs ->
  exists line options,
    In line (split LF text) /\
    options = map strip (removelast (tl (split COMMA line))) /\
    q = [(K_QUESTION, PStr (strip (hd [] (split COMMA line))));
         (K_OPTIONS, PList options);
         (K_ANSWER_HASH,
          PStr (sha256_hex (lower (strip (last (split COMMA line) [])))))] /\
    dict_get q K_OPTIONS = Ok (PList options) /\
    options <> [] /\
    (List.length options + 2 = List.length (split COMMA line))%nat.
Proof.
  intros Hp Hq. destruct (in_parsed _ _ _ _ Hp Hq) as [line [Hin [W ->]]].
  exists line, (map strip (removelast (tl (split COMMA line)))).
  split; [exact Hin|]. split; [reflexivity|].
  split; [reflexivity|]. split; [reflexivity|].
  unfold well_formed in W. change (min_fields MULTIPLE_CHOICE) with 3%nat in W.
  apply Nat.leb_le in W.
  assert (L : List.length (map strip (removelast (tl (split COMMA line))))
              = (List.length (split COMMA line) - 2)%nat)
    by (rewrite length_map; apply length_removelast_tl).
  split.
  - intros H. rewrite H in L. simpl in L. lia.
  - rewrite L. lia.
Qed.

Lemma multiple_choice_has_options_witness :
  let text := s2l "x
2+2?,3,4,5,4" in
  let q := [(K_QUESTION, PStr (s2l "2+2?"));
            (K_OPTIONS, PList [s2l "3"; s2l "4"; s2l "5"]);
            (K_ANSWER_HASH, PStr (sha256_hex (s2l "4")))] in
  parse_questions MULTIPLE_CHOICE text = Ok [q] /\
  exists line options,
    In line (split LF text) /\
    options = map strip (removelast (tl (split COMMA line))) /\
    q = [(K_QUESTION, PStr (strip (hd [] (split COMMA line))));
         (K_OPTIONS, PList options);
         (K_ANSWER_HASH,
          PStr (sha256_hex (lower (strip (last (split COMMA line) [])))))] /\
    dict_get q K_OPTIONS = Ok (PList options) /\
    options <> [] /\
    (List.length options + 2 = List.length (split COMMA line))%nat.
Proof.
  intros text q.
  assert (Hp : parse_questions MULTIPLE_CHOICE text = Ok [q])
    by (vm_compute; reflexivity).
  split; [exact Hp|].
  exact (multiple_choice_has_options text [q] q Hp (or_introl eq_refl)).
Defined.

(** X6. The answer_hash of every record is a string of 64 lowercase
    hexadecimal digits. *)
Theorem answer_hash_shape (quiz_type text : str) (qs : list dict) (q : dict) :
  parse_questions quiz_type text = Ok qs ->
  In q qs ->
  exists h,
    dict_get q K_ANSWER_HASH = Ok (PStr h) /\
    List.length h = 64%nat /\
    forallb is_hex_digit h = true.
Proof.
  intros Hp Hq. destruct (in_parsed _ _ _ _ Hp Hq) as [line [_ [_ ->]]].
  eexists. split; [apply dict_get_answer_hash|].
  apply hexdigest_shape.
Qed.

Lemma answer_hash_shape_witness :
  exists q h,
    parse_questions (s2l "Text Answer") (s2l "2+2?,four") = Ok [q] /\
    dict_get q K_ANSWER_HASH = Ok (PStr h) /\
    List.length h = 64%nat /\
    forallb is_hex_digit h = true.
Proof.
  exists (record_of (s2l "Text Answer") (split COMMA (s2l "2+2?,four"))).
  destruct (answer_hash_shape (s2l "Text Answer") (s2l "2+2?,four")
              [record_of (s2l "Text Answer") (split COMMA (s2l "2+2?,four"))]
              (record_of (s2l "Text Answer") (split COMMA (s2l "2+2?,four"))))
    as [h H].
  - vm_compute. reflexivity.
  - now left.
  - exists h. split; [vm_compute; reflexivity | exact H].
Defined.

(** ** More on the grader *)

Lemma count_score_app questions a b : forall i s,
  count_score questions (a ++ b) i s
  = s' <- count_score questions a i s ;;
    count_score questions b (i + len a) s'.
Proof.
  induction a as [|x a IH]; intros i s.
  - simpl. unfold len. simpl. now rewrite Z.add_0_r.
  - simpl. destruct (answer_matches questions i x) as [hit|e]; [|reflexivity].
    simpl. rewrite IH. unfold len. simpl List.length.
    now replace (i + 1 + Z.of_nat (List.length a))
      with (i + Z.of_nat (S (List.length a))) by lia.
Qed.

Lemma count_score_bounds questions answers : forall i s s',
  count_score questions answers i s = Ok s' ->
  s <= s' <= s + len answers.
Proof.
  unfold len. induction answers as [|x answers IH]; intros i s s' H.
  - simpl in *. injection H as <-. lia.
  - simpl in H. destruct (answer_matches questions i x) as [hit|e];
      [|discriminate]. simpl in H. apply IH in H.
    simpl List.length. destruct hit; lia.
Qed.

(** X7. The score is never negative and never more than the number of
    answers given. *)
Theorem score_at_most_answers (questions : list dict)
  (answers : list (option str)) (score : Z) :
  count_score questions answers 0 0 = Ok score ->
  0 <= score <= len answers.
Proof. intros H. apply count_score_bounds in H. lia. Qed.

Lemma score_at_most_answers_witness :
  let questions := [text_record (s2l "2+2?") (sha256_hex (s2l "four"));
                    text_record (s2l "3+3?") (sha256_hex (s2l "six"))] in
  let answers := [Some (s2l "Four"); Some (s2l "seven")] in
  count_score questions answers 0 0 = Ok 1 /\ 0 <= 1 <= len answers.
Proof.
  intros questions answers.
  assert (H : count_score questions answers 0 0 = Ok 1)
    by (vm_compute; reflexivity).
  split; [exact H|].
  exact (score_at_most_answers questions answers 1 H).
Defined.

Lemma parsed_have_hash qt text qs :
  parse_questions qt text = Ok qs -> Forall has_hash qs.
Proof.
  intros Hp. apply Forall_forall. intros q Hq.
  destruct (in_parsed _ _ _ _ Hp Hq) as [line [_ [_ ->]]].
  eexists. apply dict_get_answer_hash.
Qed.

Lemma answer_matches_runs questions i ans :
  Forall has_hash questions -> 0 <= i < len questions ->
  exists hit, answer_matches questions i ans = Ok hit.
Proof.
  intros F Hi. unfold answer_matches.
  destruct ans as [a|]; [|now eexists].
  destruct (truthy a); [|now eexists]. cbn [negb].
  destruct (nth_error questions (Z.to_nat i)) as [q|] eqn:E.
  2:{ apply nth_error_None in E. unfold len in Hi. lia. }
  replace i with (Z.of_nat (Z.to_nat i)) by lia.
  rewrite (getitem_nth_error _ _ _ E). cbn [bind].
  rewrite Forall_forall in F.
  destruct (F q (nth_error_In _ _ E)) as [h Hh]. rewrite Hh. cbn [bind].
  now eexists.
Qed.

Lemma count_score_runs questions answers : forall i s,
  Forall has_hash questions -> 0 <= i -> i + len answers <= len questions ->
  exists s', count_score questions answers i s = Ok s'.
Proof.
  induction answers as [|x answers IH]; intros i s F Hi Hl.
  - now eexists.
  - unfold len in Hl. simpl List.length in Hl. simpl.
    destruct (answer_matches_runs questions i x F) as [hit Hh];
      [unfold len; lia|].
    rewrite Hh. cbn [bind]. apply IH; [assumption | lia | unfold len; lia].
Qed.

Lemma meets_threshold_runs score total :
  exists pass, meets_threshold score total = Ok pass.
Proof.
  unfold meets_threshold, truediv.
  destruct (Z.ltb_spec 0 total); [|now eexists].
  replace (total =? 0) with false by (symmetry; apply Z.eqb_neq; lia).
  now eexists.
Qed.

(** X8. Grading the questions the parser returned returns its message
    when there are at most as many answers as questions, for all answers
    among the strings of code points up to U+00FF and [None]: every
    [questions[i]] is in range, every record has its answer_hash and the
    division is guarded, so that none of IndexError, KeyError and
    ZeroDivisionError is raised.  (On an answer that holds a lone
    surrogate, [encode()] raises UnicodeEncodeError; such an answer is not
    among the strings of this development.) *)
Theorem grading_returns (quiz_type text instructor name : str)
  (qs : list dict) (answers : list (option str)) (w : World) :
  parse_questions quiz_type text = Ok qs ->
  (List.length answers <= List.length qs)%nat ->
  exists message cert_path w',
    eval_quiz instructor qs name answers w = (Ok (message, cert_path), w').
Proof.
  intros Hp Hl.
  destruct (count_score_runs qs answers 0 0 (parsed_have_hash _ _ _ Hp))
    as [score Hs]; [lia | unfold len; lia|].
  destruct (meets_threshold_runs score (len qs)) as [pass Hm].
  destruct (eval_quiz_runs instructor qs name answers score pass w Hs Hm)
    as [message [cert_path [w' [E _]]]].
  now exists message, cert_path, w'.
Qed.

Lemma grading_returns_witness :
  let w := mkWorld (fun _ => s2l "7d44") 0 (s2l "/tmp") (s2l "01 January 2025")
             [] [] in
  exists qs message cert_path w',
    parse_questions MULTIPLE_CHOICE (s2l "2+2?,3,4,4
Red planet?,Mars,Venus,Mars") = Ok qs /\
    eval_quiz (s2l "Ada") qs (s2l "Bob") [Some (s2l "3"); None] w
    = (Ok (message, cert_path), w').
Proof.
  intros w.
  destruct (parse_questions MULTIPLE_CHOICE (s2l "2+2?,3,4,4
Red planet?,Mars,Venus,Mars")) as [qs|e] eqn:Hp;
    [|vm_compute in Hp; discriminate Hp].
  assert (L : List.length qs = 2%nat)
    by (vm_compute in Hp; injection Hp as <-; reflexivity).
  destruct (grading_returns MULTIPLE_CHOICE _ (s2l "Ada") (s2l "Bob") qs
              [Some (s2l "3"); None] w Hp)
    as [message [cert_path [w' E]]].
  - rewrite L. simpl. lia.
  - now exists qs, message, cert_path, w'.
Defined.




Lemma count_score_unanswered questions extras : forall i s,
  forallb unanswered extras = true ->
  count_score questions extras i s = Ok s.
Proof.
  induction extras as [|x extras IH]; intros i s H; [reflexivity|].
  simpl in H. apply andb_true_iff in H as [Hx H].
  simpl. assert (E : answer_matches questions i x = Ok false).
  { destruct x as [a|]; [|reflexivity]. simpl in Hx. unfold answer_matches.
    now rewrite Hx. }
  rewrite E. cbn [bind]. now apply IH.
Qed.

(** X10. Answers left empty ([None] or the empty string) are skipped
    without a look at the questions: at the end of a submission they change
    neither the score nor whether grading raises, however many they are and
    whatever the question list is. *)
Theorem unanswered_skipped (questions : list dict)
  (answers extras : list (option str)) :
  forallb unanswered extras = true ->
  count_score questions (answers ++ extras) 0 0
  = count_score questions answers 0 0.
Proof.
  intros H. rewrite count_score_app.
  destruct (count_score questions answers 0 0) as [s|e]; [|reflexivity].
  cbn [bind]. now apply count_score_unanswered.
Qed.

Lemma unanswered_skipped_witness :
  count_score [] ([] ++ [None; Some []; None]) 0 0 = count_score [] [] 0 0.
Proof. apply (unanswered_skipped [] [] [None; Some []; None]). reflexivity. Defined.

Lemma line_records_map qt lines :
  flat_map (line_records qt) lines
  = map (fun l => record_of qt (split COMMA l)) (filter (well_formed qt) lines).
Proof.
  induction lines as [|l lines IH]; [reflexivity|].
  simpl. unfold line_records at 1.
  destruct (well_formed qt l); simpl; now rewrite IH.
Qed.

Lemma len_app_one {A} (l : list A) x : len (l ++ [x]) = len l + 1.
Proof. unfold len. rewrite length_app. simpl. lia. Qed.

Lemma getitem_middle {A} (pre : list A) x post :
  getitem (pre ++ x :: post) (len pre) = Ok x.
Proof.
  unfold len. apply getitem_nth_error.
  rewrite nth_error_app2 by lia. now rewrite Nat.sub_diag.
Qed.

Lemma count_score_all_right qt lines : forall subs pre s,
  Forall2 (fun l sub =>
             same_answer sub (answer_field qt (split COMMA l)) /\ sub <> [])
          lines subs ->
  count_score (pre ++ map (fun l => record_of qt (split COMMA l)) lines)
              (map Some subs) (len pre) s
  = Ok (s + len lines).
Proof.
  induction lines as [|l lines IH]; intros subs pre s F.
  - inversion F. subst. simpl. unfold len. simpl. now rewrite Z.add_0_r.
  - inversion F as [|l0 sub ls subs' [Hs Hn] F']. subst.
    cbn [map count_score]. unfold answer_matches.
    destruct sub as [|c sub]; [congruence|]. cbn [truthy negb].
    rewrite getitem_middle. cbn [bind]. rewrite dict_get_answer_hash.
    cbn [bind]. unfold same_answer in Hs.
    rewrite strip_lower, Hs, str_eqb_refl.
    change (pre ++ record_of qt (split COMMA l)
                :: map (fun l1 => record_of qt (split COMMA l1)) lines)
      with (pre ++ [record_of qt (split COMMA l)]
                ++ map (fun l1 => record_of qt (split COMMA l1)) lines).
    rewrite app_assoc, <- (len_app_one pre (record_of qt (split COMMA l))).
    rewrite IH by exact F'.
    f_equal. unfold len. simpl List.length. lia.
Qed.

(** X11. Full marks.  Answering every question with its line's answer
    field, up to letter case and surrounding whitespace and not empty,
    scores as many points as there are questions, and, for a quiz that is
    not empty, [eval_quiz] returns a certificate. *)
Theorem right_answers_earn_certificate (quiz_type text instructor name : str)
  (qs : list dict) (subs : list str) (w : World) :
  parse_questions quiz_type text = Ok qs ->
  Forall2 (fun line sub =>
             same_answer sub (answer_field quiz_type (split COMMA line))
             /\ sub <> [])
          (filter (well_formed quiz_type) (split LF text)) subs ->
  0 < len qs < 2 ^ 53 ->
  count_score qs (map Some subs) 0 0 = Ok (len qs) /\
  exists message cert_path w',
    eval_quiz instructor qs name (map Some subs) w
    = (Ok (message, Some cert_path), w').
Proof.
  intros Hp F Hn. rewrite parse_questions_lines in Hp. injection Hp as <-.
  rewrite line_records_map in *.
  set (lines := filter (well_formed quiz_type) (split LF text)) in *.
  assert (C : count_score
                (map (fun l => record_of quiz_type (split COMMA l)) lines)
                (map Some subs) 0 0
              = Ok (len (map (fun l => record_of quiz_type (split COMMA l))
                             lines))).
  { pose proof (count_score_all_right quiz_type lines subs [] 0 F) as H.
    cbn [app] in H. change (len (@nil dict)) with 0 in H. rewrite H.
    unfold len. now rewrite length_map. }
  split; [exact C|].
  set (qs := map (fun l => record_of quiz_type (split COMMA l)) lines) in *.
  assert (M : meets_threshold (len qs) (len qs)
              = Ok (4 * len qs <=? 5 * len qs))
    by (apply meets_threshold_spec; lia).
  destruct (eval_quiz_runs instructor qs name (map Some subs) _ _ w C M)
    as [message [cert_path [w' [E P]]]].
  destruct cert_path as [p|].
  - now exists message, p, w'.
  - exfalso. destruct P as [_ P]. apply P; [|reflexivity].
    apply Z.leb_le. lia.
Qed.

Lemma right_answers_earn_certificate_witness :
  let w := mkWorld (fun _ => s2l "7d44") 0 (s2l "/tmp") (s2l "01 January 2025")
             [] [] in
  let text := s2l "2+2?,3,4,4
short
Red planet?,Mars,Venus, Mars" in
  exists qs message cert_path w',
    parse_questions MULTIPLE_CHOICE text = Ok qs /\
    count_score qs [Some (s2l "4"); Some (s2l "MARS ")] 0 0 = Ok 2 /\
    eval_quiz (s2l "Ada") qs (s2l "Bob") [Some (s2l "4"); Some (s2l "MARS ")] w
    = (Ok (message, Some cert_path), w').
Proof.
  intros w text.
  destruct (parse_questions MULTIPLE_CHOICE text) as [qs|e] eqn:Hp;
    [|vm_compute in Hp; discriminate Hp].
  assert (L : len qs = 2)
    by (vm_compute in Hp; injection Hp as <-; reflexivity).
  destruct (right_answers_earn_certificate MULTIPLE_CHOICE text (s2l "Ada")
              (s2l "Bob") qs [s2l "4"; s2l "MARS "] w Hp)
    as [C [message [cert_path [w' E]]]].
  - change (filter (well_formed MULTIPLE_CHOICE) (split LF text))
      with [s2l "2+2?,3,4,4"; s2l "Red planet?,Mars,Venus, Mars"].
    constructor; [split; [reflexivity | discriminate]|].
    constructor; [split; [reflexivity | discriminate]|].
    constructor.
  - rewrite L. split; reflexivity.
  - exists qs, message, cert_path, w'. split; [reflexivity|].
    rewrite L in C. split; [exact C | exact E].
Defined.


(** ** Certificates *)

Lemma generate_certificate_effect name score total instructor w :
  exists ops,
    generate_certificate name score total instructor w
    = (Ok (next_cert_path w), add_file (next_cert_path w) ops (draw_uuid w))
    /\ In (DrawCentredString name) ops
    /\ In (DrawCentredString
             (s2l "Score: " ++ str_of_int score ++ s2l " / " ++ str_of_int total))
          ops
    /\ In (DrawString (s2l "Instructor: " ++ instructor)) ops
    /\ In (DrawRightString (s2l "Issued on: " ++ today w)) ops.
Proof.
  unfold generate_certificate, bindP, uuid4, gettempdir, now_strftime, save,
    retP, next_cert_path.
  cbn [tempdir today draw_uuid uuid_source uuid_drawn].
  eexists. split; [reflexivity|].
  split; [do 11 right; now left|].
  split; [do 15 right; now left|].
  split; [do 17 right; now left|].
  do 19 right. now left.
Qed.

(** X12. What grading does to the world.  When the threshold is met,
    [eval_quiz] draws one UUID and saves one file, in the temporary
    directory under the name cert_<uuid>.pdf; it returns that path, and the
    file shows the name (Anonymous for a blank name), the score and the
    total, the instructor and the date.  When the threshold is not met the
    world is left as it was and no path is returned. *)
Theorem grading_effect (instructor : str) (questions : list dict) (name : str)
  (answers : list (option str)) (score : Z) (pass : bool) (w : World) :
  count_score questions answers 0 0 = Ok score ->
  meets_threshold score (len questions) = Ok pass ->
  let shown := if negb (truthy (strip name)) then s2l "Anonymous" else name in
  let message :=
    s2l "Hi " ++ shown ++ s2l ", your score is: " ++ str_of_int score
    ++ s2l " / " ++ str_of_int (len questions) ++ s2l "." in
  (pass = true ->
   exists ops,
     eval_quiz instructor questions name answers w
     = (Ok (message
            ++ s2l " Congratulations, you passed and earned a certificate!",
            Some (next_cert_path w)),
        add_file (next_cert_path w) ops (draw_uuid w))
     /\ In (DrawCentredString shown) ops
     /\ In (DrawCentredString
              (s2l "Score: " ++ str_of_int score ++ s2l " / "
               ++ str_of_int (len questions))) ops
     /\ In (DrawString (s2l "Instructor: " ++ instructor)) ops
     /\ In (DrawRightString (s2l "Issued on: " ++ today w)) ops)
  /\
  (pass = false ->
   eval_quiz instructor questions name answers w
   = (Ok (message
          ++ s2l " A score of 80% is required to receive a certificate.",
          None), w)).
Proof.
  intros Hc Hm shown message. split; intros ->.
  - destruct (generate_certificate_effect shown score (len questions)
                instructor w) as [ops [E I]].
    exists ops. split; [|exact I].
    unfold eval_quiz, bindP, lift, retP. rewrite Hc, Hm.
    fold shown. rewrite E. reflexivity.
  - unfold eval_quiz, bindP, lift, retP. rewrite Hc, Hm. reflexivity.
Qed.

Lemma grading_effect_witness :
  let w := mkWorld (fun _ => s2l "7d44") 0 (s2l "/tmp") (s2l "01 January 2025")
             [] [] in
  let questions := [text_record (s2l "2+2?") (sha256_hex (s2l "four"))] in
  (exists ops,
      eval_quiz (s2l "Ada") questions (s2l "  ") [Some (s2l "Four")] w
      = (Ok (s2l "Hi Anonymous, your score is: 1 / 1. Congratulations, you passed and earned a certificate!",
             Some (s2l "/tmp/cert_7d44.pdf")),
         add_file (s2l "/tmp/cert_7d44.pdf") ops (draw_uuid w))
      /\ In (DrawCentredString (s2l "Anonymous")) ops)
  /\ eval_quiz (s2l "Ada") questions (s2l "Bob") [Some (s2l "five")] w
     = (Ok (s2l "Hi Bob, your score is: 0 / 1. A score of 80% is required to receive a certificate.",
            None), w).
Proof.
  intros w questions. split.
  - destruct (proj1 (grading_effect (s2l "Ada") questions (s2l "  ")
                       [Some (s2l "Four")] 1 true w
                       ltac:(vm_compute; reflexivity)
                       ltac:(vm_compute; reflexivity)) eq_refl)
      as [ops [E [I _]]].
    exists ops. split; [exact E | exact I].
  - exact (proj2 (grading_effect (s2l "Ada") questions (s2l "Bob")
                    [Some (s2l "five")] 0 false w
                    ltac:(vm_compute; reflexivity)
                    ltac:(vm_compute; reflexivity)) eq_refl).
Defined.

Lemma path_join_cert tmp :
  exists prefix,
    forall v, path_join tmp (s2l "cert_" ++ v ++ s2l ".pdf")
              = prefix ++ s2l "cert_" ++ v ++ s2l ".pdf".
Proof.
  unfold path_join. destruct (rev tmp) as [|d r].
  - exists []. reflexivity.
  - destruct (Ascii.eqb d (chr 47)).
    + exists tmp. reflexivity.
    + exists (tmp ++ [chr 47]). intros v. simpl.
      now rewrite <- app_assoc.
Qed.

(** X13. Two certificates made one after the other are two files with
    different paths when the UUID source gives two different values: the
    second does not replace the first. *)
Theorem certificates_do_not_collide
  (name1 : str) (score1 total1 : Z) (instructor1 : str)
  (name2 : str) (score2 total2 : Z) (instructor2 : str) (w : World) :
  uuid_source w (uuid_drawn w) <> uuid_source w (S (uuid_drawn w)) ->
  exists p1 ops1 w1 p2 ops2 w2,
    generate_certificate name1 score1 total1 instructor1 w = (Ok p1, w1) /\
    generate_certificate name2 score2 total2 instructor2 w1 = (Ok p2, w2) /\
    p1 <> p2 /\
    files w2 = files w ++ [(p1, ops1); (p2, ops2)].
Proof.
  intros Hu.
  destruct (generate_certificate_effect name1 score1 total1 instructor1 w)
    as [ops1 [E1 _]].
  set (w1 := add_file (next_cert_path w) ops1 (draw_uuid w)) in *.
  destruct (generate_certificate_effect name2 score2 total2 instructor2 w1)
    as [ops2 [E2 _]].
  exists (next_cert_path w), ops1, w1, (next_cert_path w1), ops2,
    (add_file (next_cert_path w1) ops2 (draw_uuid w1)).
  split; [exact E1|]. split; [exact E2|]. split.
  - unfold next_cert_path, w1.
    cbn [tempdir uuid_source uuid_drawn add_file draw_uuid].
    destruct (path_join_cert (tempdir w)) as [prefix P]. rewrite !P.
    intros H. apply app_inv_head, app_inv_head, app_inv_tail in H.
    contradiction.
  - subst w1. cbn [files add_file draw_uuid]. now rewrite <- app_assoc.
Qed.

Lemma certificates_do_not_collide_witness :
  let w := mkWorld (fun n => str_of_int (Z.of_nat n)) 0 (s2l "/tmp")
             (s2l "01 January 2025") [] [] in
  exists ops1 ops2 w2,
    generate_certificate (s2l "Bob") 4 5 (s2l "Ada")
      (snd (generate_certificate (s2l "Eve") 5 5 (s2l "Ada") w))
    = (Ok (s2l "/tmp/cert_1.pdf"), w2) /\
    files w2 = [(s2l "/tmp/cert_0.pdf", ops1); (s2l "/tmp/cert_1.pdf", ops2)].
Proof.
  intros w.
  destruct (certificates_do_not_collide (s2l "Eve") 5 5 (s2l "Ada")
              (s2l "Bob") 4 5 (s2l "Ada") w)
    as [p1 [ops1 [w1 [p2 [ops2 [w2 [E1 [E2 [_ F]]]]]]]]].
  - discriminate.
  - exists ops1, ops2, w2. rewrite E1. cbn [snd].
    assert (P1 : p1 = s2l "/tmp/cert_0.pdf").
    { apply (f_equal fst) in E1. cbn in E1. now injection E1 as <-. }
    assert (P2 : p2 = s2l "/tmp/cert_1.pdf").
    { enough (W : w1 = snd (generate_certificate (s2l "Eve") 5 5 (s2l "Ada") w)).
      - rewrite W in E2. apply (f_equal fst) in E2. cbn in E2.
        now injection E2 as <-.
      - now rewrite E1. }
    subst p1 p2. split; [exact E2 | exact F].
Defined.

(** X14. The threshold is monotone in the score.  For a quiz with fewer
    than 2^53 questions, a score that meets the condition of line 159 still
    meets it when it grows; full marks always meet it and a score of 0
    never does. *)
Theorem threshold_monotone (score score' total : Z) :
  0 < total < 2 ^ 53 ->
  0 <= score <= score' -> score' <= total ->
  (meets_threshold score total = Ok true ->
   meets_threshold score' total = Ok true) /\
  meets_threshold total total = Ok true /\
  meets_threshold 0 total = Ok false.
Proof.
  intros Ht Hs Hs'.
  rewrite !meets_threshold_spec by lia.
  split; [|split].
  - intros H.
    assert (H' : (4 * total <=? 5 * score) = true) by congruence.
    f_equal. apply Z.leb_le in H'. apply Z.leb_le. lia.
  - f_equal. apply Z.leb_le. lia.
  - f_equal. apply Z.leb_gt. lia.
Qed.

Lemma threshold_monotone_witness :
  (meets_threshold 8 10 = Ok true -> meets_threshold 9 10 = Ok true) /\
  meets_threshold 10 10 = Ok true /\
  meets_threshold 0 10 = Ok false.
Proof.
  apply (threshold_monotone 8 9 10); [split; reflexivity | split; discriminate
                                     | discriminate].
Defined.

(** ** The form of the emitted script *)





(** X16. Building a multiple-choice form over records that have no
    options key raises KeyError at the first record: the records of a
    text-answer quiz cannot be shown as a multiple-choice quiz. *)
Theorem form_needs_options (title quiz_type text : str) (qs : list dict) :
  quiz_type <> MULTIPLE_CHOICE ->
  parse_questions quiz_type text = Ok qs ->
  qs <> [] ->
  build_form title MULTIPLE_CHOICE qs = inr FormKeyError.
Proof.
  intros Hq Hp Hn. rewrite parse_questions_lines, line_records_map in Hp.
  injection Hp as <-.
  destruct (filter (well_formed quiz_type) (split LF text)) as [|l ls];
    [now contradiction Hn|].
  unfold build_form. cbn [map question_loop].
  unfold question_widgets, record_of. rewrite (is_mc_false _ Hq).
  reflexivity.
Qed.

Lemma form_needs_options_witness :
  exists qs,
    parse_questions (s2l "Text Answer") (s2l "2+2?,four") = Ok qs /\
    build_form (s2l "Quiz") MULTIPLE_CHOICE qs = inr FormKeyError.
Proof.
  destruct (parse_questions (s2l "Text Answer") (s2l "2+2?,four"))
    as [qs|e] eqn:Hp; [|vm_compute in Hp; discriminate Hp].
  exists qs. split; [reflexivity|].
  apply (form_needs_options (s2l "Quiz") (s2l "Text Answer") (s2l "2+2?,four")
           qs); [discriminate | exact Hp|].
  vm_compute in Hp. injection Hp as <-. discriminate.
Defined.

(** ** The emitted script *)

Lemma render_pieces title instructor quiz_type qs :
  render title instructor quiz_type qs
  = flat_map (render_piece title instructor quiz_type qs) template_pieces.
Proof.
  unfold render, template_pieces. induction template as [|line t IH];
    [reflexivity|].
  cbn [flat_map]. rewrite flat_map_app, IH. f_equal.
  rewrite flat_map_app. reflexivity.
Qed.

Lemma render_fixed title instructor quiz_type qs ps :
  forallb is_text ps = true ->
  flat_map (render_piece title instructor quiz_type qs) ps = fixed_text ps.
Proof.
  unfold fixed_text. induction ps as [|p ps IH]; [reflexivity|].
  cbn [forallb flat_map]. intros H. apply andb_true_iff in H as [Hp H].
  rewrite IH by exact H. now destruct p.
Qed.

Lemma until_field_spec ps :
  ps = fst (until_field ps) ++ snd (until_field ps)
  /\ forallb is_text (fst (until_field ps)) = true.
Proof.
  induction ps as [|p ps [IH1 IH2]]; [now split|].
  cbn [until_field]. destruct (is_text p) eqn:E; cbv zeta; cbn [fst snd].
  - split; [cbn; now rewrite <- IH1 | cbn; now rewrite E].
  - now split.
Qed.

Lemma render_until_field title instructor quiz_type qs ps :
  flat_map (render_piece title instructor quiz_type qs) ps
  = fixed_text (fst (until_field ps))
    ++ flat_map (render_piece title instructor quiz_type qs)
         (snd (until_field ps)).
Proof.
  destruct (until_field_spec ps) as [E F].
  rewrite E at 1. rewrite flat_map_app. f_equal.
  now apply render_fixed.
Qed.

Lemma render_to_field title instructor quiz_type qs ps p :
  snd (until_field ps) = p :: tl (snd (until_field ps)) ->
  flat_map (render_piece title instructor quiz_type qs) ps
  = fixed_text (fst (until_field ps))
    ++ render_piece title instructor quiz_type qs p
    ++ flat_map (render_piece title instructor quiz_type qs)
         (tl (snd (until_field ps))).
Proof.
  intros E. rewrite render_until_field. rewrite E at 1. reflexivity.
Qed.

Lemma render_to_end title instructor quiz_type qs ps :
  snd (until_field ps) = [] ->
  flat_map (render_piece title instructor quiz_type qs) ps
  = fixed_text (fst (until_field ps)).
Proof.
  intros E. rewrite render_until_field, E. apply app_nil_r.
Qed.

Lemma render_shape title instructor quiz_type qs :
  render title instructor quiz_type qs
  = stretch 0 ++ instructor ++ stretch 1 ++ quiz_type ++ stretch 2
    ++ repr_questions qs ++ stretch 3 ++ instructor ++ stretch 4 ++ title
    ++ stretch 5.
Proof.
  rewrite render_pieces. unfold stretch. cbn [Nat.iter].
  set (p0 := template_pieces).
  set (p1 := tl (snd (until_field p0))).
  set (p2 := tl (snd (until_field p1))).
  set (p3 := tl (snd (until_field p2))).
  set (p4 := tl (snd (until_field p3))).
  set (p5 := tl (snd (until_field p4))).
  rewrite (render_to_field _ _ _ _ p0 Instructor) by (vm_compute; reflexivity).
  fold p1.
  rewrite (render_to_field _ _ _ _ p1 QuizType) by (vm_compute; reflexivity).
  fold p2.
  rewrite (render_to_field _ _ _ _ p2 Questions) by (vm_compute; reflexivity).
  fold p3.
  rewrite (render_to_field _ _ _ _ p3 Instructor) by (vm_compute; reflexivity).
  fold p4.
  rewrite (render_to_field _ _ _ _ p4 Title) by (vm_compute; reflexivity).
  fold p5.
  rewrite (render_to_end _ _ _ _ p5) by (vm_compute; reflexivity).
  reflexivity.
Qed.

(** X17. Substitution is textual.  The emitted script is six fixed
    stretches of text with the instructor's name, the quiz type, the
    [repr] of the parsed questions, the instructor's name again and the
    title put between them as they are, nothing escaped.  The name sits
    between two double quotes, after [instructor=]; the questions follow
    [questions = ] to the end of the line. *)
Theorem substitution_is_textual
  (title instructor quiz_type questions_text : str) (w : World) :
  exists qs,
    parse_questions quiz_type questions_text = Ok qs /\
    generate_python_code title instructor quiz_type questions_text w
    = (Ok (stretch 0 ++ instructor ++ stretch 1 ++ quiz_type ++ stretch 2
           ++ repr_questions qs ++ stretch 3 ++ instructor ++ stretch 4
           ++ title ++ stretch 5), w) /\
    (exists a, stretch 0 = a ++ s2l "instructor=" ++ [DQUOTE]) /\
    (exists b, stretch 1 = DQUOTE :: s2l "):" ++ LF :: b) /\
    stretch 2 = DQUOTE :: LF :: s2l "questions = " /\
    (exists b, stretch 3 = LF :: b).
Proof.
  eexists. split; [apply parse_questions_lines|].
  rewrite generate_python_code_runs, render_shape.
  split; [reflexivity|].
  split; [|split; [|split]].
  - exists (firstn (List.length (stretch 0) - 12) (stretch 0)).
    vm_compute. reflexivity.
  - exists (Nat.iter 4 (@tl ascii) (stretch 1)). vm_compute. reflexivity.
  - vm_compute. reflexivity.
  - exists (tl (stretch 3)). vm_compute. reflexivity.
Qed.

(** ** The questions literal *)

Lemma repr_char_printable q c :
  q = SQUOTE \/ q = DQUOTE ->
  forallb isprintable (repr_char q c) = true.
Proof.
  intros [-> | ->]; destruct c as [[] [] [] [] [] [] [] []]; reflexivity.
Qed.

Lemma forallb_flat_map {A B} (p : B -> bool) (f : A -> list B) l :
  (forall x, forallb p (f x) = true) -> forallb p (flat_map f l) = true.
Proof.
  intros H. induction l as [|x l IH]; [reflexivity|].
  simpl. now rewrite forallb_app, H, IH.
Qed.

Lemma repr_str_printable s : forallb isprintable (repr_str s) = true.
Proof.
  unfold repr_str.
  set (q := if _ : bool then DQUOTE else SQUOTE).
  assert (Hq : q = SQUOTE \/ q = DQUOTE)
    by (subst q; destruct (_ && _); auto).
  rewrite !forallb_app.
  rewrite (forallb_flat_map _ _ s (fun c => repr_char_printable q c Hq)).
  destruct Hq as [-> | ->]; reflexivity.
Qed.

Lemma join_printable sep items :
  forallb isprintable sep = true ->
  forallb (forallb isprintable) items = true ->
  forallb isprintable (join sep items) = true.
Proof.
  intros Hs. induction items as [|x [|y items] IH]; intros H.
  - reflexivity.
  - simpl in *. now rewrite andb_true_r in H.
  - cbn [forallb] in H. apply andb_true_iff in H as [Hx H].
    change (join sep (x :: y :: items)) with (x ++ sep ++ join sep (y :: items)).
    rewrite !forallb_app, Hx, Hs. apply IH. exact H.
Qed.

Lemma forallb_map {A B} (p : B -> bool) (f : A -> B) l :
  (forall x, p (f x) = true) -> forallb p (map f l) = true.
Proof.
  intros H. induction l as [|x l IH]; [reflexivity|].
  simpl. now rewrite H, IH.
Qed.

Lemma repr_list_printable items :
  forallb (forallb isprintable) items = true ->
  forallb isprintable (repr_list items) = true.
Proof.
  intros H. unfold repr_list. rewrite !forallb_app.
  rewrite join_printable; [reflexivity | reflexivity | exact H].
Qed.

Lemma repr_val_printable v : forallb isprintable (repr_val v) = true.
Proof.
  destruct v as [s|l]; [apply repr_str_printable|].
  apply repr_list_printable, forallb_map, repr_str_printable.
Qed.

Lemma repr_dict_printable d : forallb isprintable (repr_dict d) = true.
Proof.
  unfold repr_dict. rewrite !forallb_app.
  rewrite join_printable; [reflexivity | reflexivity|].
  apply forallb_map. intros kv.
  now rewrite !forallb_app, repr_str_printable, repr_val_printable.
Qed.

(** X18. The literal that carries the questions into the script is made
    of printable characters only: whatever the fields hold (tabs, carriage
    returns, other control characters), they reach the script as backslash
    escapes. *)
Theorem questions_literal_printable (qs : list dict) :
  forallb isprintable (repr_questions qs) = true.
Proof.
  unfold repr_questions.
  apply repr_list_printable, forallb_map, repr_dict_printable.
Qed.

Lemma read_body_repr_char q c rest :
  q = SQUOTE \/ q = DQUOTE ->
  read_body q (repr_char q c ++ rest)
  = match read_body q rest with
    | Some (v, tail) => Some (c :: v, tail)
    | None => None
    end.
Proof.
  intros [-> | ->]; destruct c as [[] [] [] [] [] [] [] []];
    cbn; destruct (read_body _ rest) as [[v tail]|]; reflexivity.
Qed.

Lemma read_body_repr q s tail :
  q = SQUOTE \/ q = DQUOTE ->
  read_body q (flat_map (repr_char q) s ++ q :: tail) = Some (s, tail).
Proof.
  intros Hq. induction s as [|c s IH].
  - simpl. now rewrite Ascii.eqb_refl.
  - cbn [flat_map]. rewrite <- app_assoc, read_body_repr_char, IH by exact Hq.
    reflexivity.
Qed.

(** X19. A string written by [repr] reads back as the same string: the
    literal of every question, option and digest in the emitted script
    denotes the string the parser stored, and reading stops right after the
    closing quote. *)
Theorem string_literal_round_trip (s tail : str) :
  read_str (repr_str s ++ tail) = Some (s, tail).
Proof.
  unfold repr_str.
  set (q := if _ : bool then DQUOTE else SQUOTE).
  assert (Hq : q = SQUOTE \/ q = DQUOTE)
    by (subst q; destruct (_ && _); auto).
  cbn [app]. unfold read_str.
  replace (Ascii.eqb q SQUOTE || Ascii.eqb q DQUOTE) with true
    by (destruct Hq as [-> | ->]; reflexivity).
  rewrite <- app_assoc. cbn [app]. now apply read_body_repr.
Qed.

(** ** A quiz without questions *)

Lemma no_well_formed_line qt lines :
  (forall line, In line lines -> well_formed qt line = false) ->
  flat_map (line_records qt) lines = [].
Proof.
  intros H. induction lines as [|l lines IH]; [reflexivity|].
  simpl. unfold line_records at 1. rewrite (H l) by now left.
  apply IH. intros line Hl. apply H. now right.
Qed.

(** X20. A questions text without a single well-formed line (a question
    without commas, say) passes the check of the form when it is not
    empty: no error is shown, and the script that is generated and shown
    carries the empty list [questions = []]. *)
Theorem quiz_without_questions
  (title instructor quiz_type questions_text : str) (w : World) :
  title <> [] -> instructor <> [] -> questions_text <> [] ->
  (forall line, In line (split LF questions_text) ->
                well_formed quiz_type line = false) ->
  parse_questions quiz_type questions_text = Ok [] /\
  repr_questions [] = s2l "[]" /\
  on_submit true title instructor quiz_type questions_text w
  = (Ok tt,
     add_widget (StCode (render title instructor quiz_type []) (s2l "python"))
       (add_widget
          (StMarkdown (s2l "Paste this entire code block into a single Google Colab cell and run it."))
          (add_widget (StHeader (s2l "2. Copy Your Generated Code")) w))).
Proof.
  intros Ht Hi Hq Hw.
  assert (P : parse_questions quiz_type questions_text = Ok [])
    by (rewrite parse_questions_lines; f_equal; now apply no_well_formed_line).
  split; [exact P|]. split; [reflexivity|].
  unfold on_submit, all.
  assert (E : forallb truthy [title; instructor; questions_text] = true).
  { destruct title; [congruence|]. destruct instructor; [congruence|].
    destruct questions_text; [congruence|]. reflexivity. }
  rewrite E. cbn [negb]. unfold bindP, generate_python_code, lift, retP.
  rewrite P. reflexivity.
Qed.

Lemma quiz_without_questions_witness :
  let w := mkWorld (fun _ => s2l "7d44") 0 (s2l "/tmp") (s2l "01 January 2025")
             [] [] in
  parse_questions MULTIPLE_CHOICE (s2l "What is 2+2?
four") = Ok [] /\
  page (snd (on_submit true (s2l "Quiz") (s2l "Ada") MULTIPLE_CHOICE
               (s2l "What is 2+2?
four") w))
  = [StHeader (s2l "2. Copy Your Generated Code");
     StMarkdown (s2l "Paste this entire code block into a single Google Colab cell and run it.");
     StCode (render (s2l "Quiz") (s2l "Ada") MULTIPLE_CHOICE []) (s2l "python")].
Proof.
  intros w.
  destruct (quiz_without_questions (s2l "Quiz") (s2l "Ada") MULTIPLE_CHOICE
              (s2l "What is 2+2?
four") w) as [P [_ S]]; try discriminate.
  - intros line [<- | [<- | []]]; reflexivity.
  - split; [exact P|]. rewrite S. reflexivity.
Defined.

(** X21. Only the exact string [Multiple Choice] selects the
    multiple-choice format: under any other quiz type, whatever its
    spelling, a text is parsed as a text-answer quiz. *)
Theorem other_quiz_types_are_text (quiz_type text : str) :
  quiz_type <> MULTIPLE_CHOICE ->
  parse_questions quiz_type text = parse_questions (s2l "Text Answer") text.
Proof.
  intros Hq. rewrite !parse_questions_lines. f_equal.
  induction (split LF text) as [|l lines IH]; [reflexivity|].
  cbn [flat_map]. rewrite IH. f_equal.
  unfold line_records, well_formed, min_fields, record_of, answer_field.
  rewrite (is_mc_false _ Hq).
  now rewrite (is_mc_false (s2l "Text Answer")) by discriminate.
Qed.

Lemma other_quiz_types_are_text_witness :
  parse_questions (s2l "multiple choice") (s2l "2+2?,3,4,4")
  = parse_questions (s2l "Text Answer") (s2l "2+2?,3,4,4").
Proof.
  apply (other_quiz_types_are_text (s2l "multiple choice") (s2l "2+2?,3,4,4")).
  discriminate.
Defined.
